(** * CSRMatrix (homeworks/homework_03/hw3_csr_matrix.py)

    A shallow embedding of the [CSRMatrix] class: three parallel Python
    lists (row indices, column indices, values), a shape and a cached
    count [_nnz].  Indices are Python integers ([Z]).  Values are
    integers of one element type [dtype]: Python's unbounded [int], or
    numpy's [int64], whose [+], [-] and [*] wrap around; float values are
    not covered.  True division produces floats, which are not modelled:
    the division is taken as given.  Operations that can raise return a
    [result]; the in-place mutation done by [__setitem__] is modelled by
    state passing (the receiver after the call), which is what the code
    does to a matrix whose three sequences are Python lists of its own,
    as the ndarray branch of the constructor builds them. *)

From Stdlib Require Import ZArith List Bool Lia Sorted.
Import ListNotations.
Local Open Scope Z_scope.

(** ** Python results and list primitives *)

Inductive exn : Type := ValueError | IndexError | OverflowError.

(** [OutOfFuel] is not a Python outcome: it marks a [while] loop whose
    iteration budget was exhausted in the model. *)
Inductive result (A : Type) : Type :=
| Ok (a : A)
| Raise (e : exn)
| OutOfFuel.

Arguments Ok {A} a.
Arguments Raise {A} e.
Arguments OutOfFuel {A}.

Definition bind {A B : Type} (m : result A) (f : A -> result B) : result B :=
  match m with
  | Ok a => f a
  | Raise e => Raise e
  | OutOfFuel => OutOfFuel
  end.

Notation "x <- m ;; k" := (bind m (fun x => k))
  (at level 61, m at next level, right associativity).

(** [l[i]] for a non-negative index. *)
Definition py_idx {A : Type} (l : list A) (i : nat) : result A :=
  match nth_error l i with
  | Some a => Ok a
  | None => Raise IndexError
  end.

(** [l[-1]]. *)
Definition py_last {A : Type} (l : list A) : result A :=
  match rev l with
  | a :: _ => Ok a
  | [] => Raise IndexError
  end.

(** [l.pop(k)], the list after the call. *)
Definition py_pop {A : Type} (k : nat) (l : list A) : result (list A) :=
  if (k <? length l)%nat then Ok (firstn k l ++ skipn (S k) l)
  else Raise IndexError.

(** [l[k] = v], the list after the assignment. *)
Definition py_store {A : Type} (k : nat) (v : A) (l : list A) : result (list A) :=
  if (k <? length l)%nat then Ok (firstn k l ++ v :: skipn (S k) l)
  else Raise IndexError.

(** [l.insert(k, v)]: never raises, an index past the end appends. *)
Definition py_insert {A : Type} (k : nat) (v : A) (l : list A) : list A :=
  firstn k l ++ v :: skipn k l.

(** [zip(a, b, c)]: stops at the shortest argument. *)
Fixpoint zip3 {A B C : Type} (a : list A) (b : list B) (c : list C)
  : list (A * B * C) :=
  match a, b, c with
  | x :: a', y :: b', z :: c' => (x, y, z) :: zip3 a' b' c'
  | _, _, _ => []
  end.

(** ** Element types *)

(** The type of the stored values: Python [int] (unbounded), as in the
    lists of a matrix built from a tuple of Python lists, or numpy
    [int64], the scalars a dense integer array hands out to the ndarray
    branch of the constructor.  Arithmetic on [int64] scalars wraps
    around (numpy warns, it does not raise), and its results are again
    [int64] scalars. *)
Inductive dtype : Type := py_int | np_int64.

Definition wrap64 (z : Z) : Z := (z + 2 ^ 63) mod 2 ^ 64 - 2 ^ 63.

(** The value an arithmetic result takes in the element type. *)
Definition norm (dt : dtype) (z : Z) : Z :=
  match dt with
  | py_int => z
  | np_int64 => wrap64 z
  end.

(** [v] is a value of the element type. *)
Definition of_dtype (dt : dtype) (v : Z) : Prop := norm dt v = v.

(** ** The numpy collaborator: dense 2D integer arrays *)

Record ndarray : Type := mk_ndarray {
  nd_shape0 : nat;
  nd_shape1 : nat;
  nd_rows : list (list Z)
}.

(** An array is well formed when its rows agree with its shape. *)
Definition nd_wf (D : ndarray) : Prop :=
  length (nd_rows D) = nd_shape0 D /\
  Forall (fun r => length r = nd_shape1 D) (nd_rows D).

(** [D[i, j]] for indices produced by [range]. *)
Definition nd_get (D : ndarray) (i j : nat) : Z :=
  nth j (nth i (nd_rows D) []) 0.

(** [np.zeros((r, c))]: negative dimensions are rejected. *)
Definition np_zeros (r c : Z) : result ndarray :=
  if (r <? 0) || (c <? 0) then Raise ValueError
  else Ok (mk_ndarray (Z.to_nat r) (Z.to_nat c)
             (repeat (repeat 0 (Z.to_nat c)) (Z.to_nat r))).

(** numpy index normalisation along an axis of length [n]: negative
    indices count from the end, anything else out of range raises. *)
Definition np_index (n : nat) (i : Z) : result nat :=
  if (0 <=? i) && (i <? Z.of_nat n) then Ok (Z.to_nat i)
  else if (- Z.of_nat n <=? i) && (i <? 0) then Ok (Z.to_nat (i + Z.of_nat n))
  else Raise IndexError.

Definition list_set {A : Type} (k : nat) (v : A) (l : list A) : list A :=
  firstn k l ++ v :: skipn (S k) l.

(** [D[i, j] = v], the array after the assignment.  The array that
    [to_dense] fills comes from [np.zeros] and holds float64 cells: an
    integer of magnitude at most 2^53 is stored exactly, a larger one is
    rounded.  The cell is kept here as the integer itself, so the
    statements about arbitrary cells of [to_dense] carry the bound
    [float64_exact]. *)
Definition np_setitem (D : ndarray) (i j : Z) (v : Z) : result ndarray :=
  i' <- np_index (nd_shape0 D) i ;;
  j' <- np_index (nd_shape1 D) j ;;
  Ok (mk_ndarray (nd_shape0 D) (nd_shape1 D)
        (list_set i' (list_set j' v (nth i' (nd_rows D) [])) (nd_rows D))).

(** ** The class *)

Record CSRMatrix (V : Type) : Type := mk_CSRMatrix {
  _nnz : Z;
  shape : list Z;
  row_ind : list Z;
  column_ind : list Z;
  data : list V
}.

Arguments mk_CSRMatrix {V} _ _ _ _ _.
Arguments _nnz {V} _.
Arguments shape {V} _.
Arguments row_ind {V} _.
Arguments column_ind {V} _.
Arguments data {V} _.

(** The constructor argument, by its dynamic type.  The members of the
    tuple are Python lists, as every operator of the class passes them
    (a tuple of np.arrays has no [insert], [pop] or [append] and is not
    covered). *)
Inductive init_matrix_representation : Type :=
| PyTuple3 (t : list Z * list Z * list Z)
| PyNdarray (D : ndarray)
| PyOther.

(** [__init__], tuple branch: the three sequences are taken as they are
    and [shape] keeps its initial value [[]]. *)
Definition init_tuple {V : Type} (t : list Z * list Z * list V) : CSRMatrix V :=
  let '(r, c, d) := t in
  mk_CSRMatrix (Z.of_nat (length d)) [] r c d.

(** [__init__], ndarray branch: the row-major scan appending the
    non-zero cells. *)
Definition dense_scan (D : ndarray) : list Z * list Z * list Z :=
  fold_left (fun st i =>
    fold_left (fun (st : list Z * list Z * list Z) j =>
      let '(r, c, d) := st in
      if negb (nd_get D i j =? 0)
      then (r ++ [Z.of_nat i], c ++ [Z.of_nat j], d ++ [nd_get D i j])
      else st)
      (seq 0 (nd_shape1 D)) st)
    (seq 0 (nd_shape0 D)) ([], [], []).

Definition init_ndarray (D : ndarray) : CSRMatrix Z :=
  let '(r, c, d) := dense_scan D in
  mk_CSRMatrix (Z.of_nat (length d))
    [Z.of_nat (nd_shape0 D); Z.of_nat (nd_shape1 D)] r c d.

Definition __init__ (x : init_matrix_representation) : result (CSRMatrix Z) :=
  match x with
  | PyTuple3 t => Ok (init_tuple t)
  | PyNdarray D => Ok (init_ndarray D)
  | PyOther => Raise ValueError
  end.

Definition nnz {V : Type} (self : CSRMatrix V) : Z := _nnz self.

(** [__getitem__]: the [for] loop over the zipped sequences, returning
    at the first match. *)
Fixpoint getitem_loop (item : Z * Z) (it : list (Z * Z * Z)) : Z :=
  match it with
  | [] => 0
  | (i, j, d) :: it' =>
      if (fst item =? i) && (snd item =? j) then d
      else getitem_loop item it'
  end.

Definition __getitem__ (self : CSRMatrix Z) (item : Z * Z) : Z :=
  getitem_loop item (zip3 (row_ind self) (column_ind self) (data self)).

(** [__setitem__]: the receiver after the call.  The loop variable [k]
    ranges over [range(len(self.data) + 1)].  The three sequences are
    taken to be three distinct Python lists ([pop], [insert] and
    [append] are list methods, and each call changes one list only); see
    [list_backed]. *)
Fixpoint setitem_loop (self : CSRMatrix Z) (key : Z * Z) (value : Z)
  (it : list (Z * Z * nat)) : result (CSRMatrix Z) :=
  match it with
  | [] =>
      Ok (mk_CSRMatrix (_nnz self) (shape self)
            (row_ind self ++ [fst key])
            (column_ind self ++ [snd key])
            (data self ++ [value]))
  | (i, j, k) :: it' =>
      if (fst key =? i) && (snd key =? j) then
        if value =? 0 then
          d <- py_pop k (data self) ;;
          r <- py_pop k (row_ind self) ;;
          c <- py_pop k (column_ind self) ;;
          Ok (mk_CSRMatrix (_nnz self - 1) (shape self) r c d)
        else
          d <- py_store k value (data self) ;;
          Ok (mk_CSRMatrix (_nnz self) (shape self)
                (row_ind self) (column_ind self) d)
      else if ((fst key =? i) && (snd key >? j)) || (fst key >? i) then
        if negb (k =? length (data self))%nat then
          Ok (mk_CSRMatrix (_nnz self + 1) (shape self)
                (py_insert k (fst key) (row_ind self))
                (py_insert k (snd key) (column_ind self))
                (py_insert k value (data self)))
        else
          Ok (mk_CSRMatrix (_nnz self + 1) (shape self)
                (row_ind self) (column_ind self) (data self))
      else setitem_loop self key value it'
  end.

Definition __setitem__ (self : CSRMatrix Z) (key : Z * Z) (value : Z)
  : result (CSRMatrix Z) :=
  setitem_loop self key value
    (zip3 (row_ind self) (column_ind self) (seq 0 (length (data self) + 1))).

(** ** Element-wise operations: the merge loop [_op] *)

Inductive action : Type := act_add | act_sub | act_mul.

Definition is_mul (a : action) : bool :=
  match a with act_mul => true | _ => false end.

(** The three accumulators [res_row], [res_cl], [res_data]. *)
Definition triple : Type := (list Z * list Z * list Z)%type.

(** [r1 < r2 or (r1 == r2 and c1 < c2)], with Python's short-circuit
    evaluation: the column subscripts are evaluated (and may raise) only
    when the rows are equal. *)
Definition coord_lt (r1 r2 : Z) (c1 c2 : result Z) : result bool :=
  if r1 <? r2 then Ok true
  else if r1 =? r2 then (x <- c1 ;; y <- c2 ;; Ok (x <? y))
  else Ok false.

Definition coord_eq (r1 r2 : Z) (c1 c2 : result Z) : result bool :=
  if r1 =? r2 then (x <- c1 ;; y <- c2 ;; Ok (x =? y))
  else Ok false.

Definition coord_gt (r1 r2 : Z) (c1 c2 : result Z) : result bool :=
  if r1 >? r2 then Ok true
  else if r1 =? r2 then (x <- c1 ;; y <- c2 ;; Ok (x >? y))
  else Ok false.

(** The [while i < _len] loop.  It returns the cursor [j] and the
    accumulators as they are when the loop is left.  [dt] is the element
    type of the values of both operands: every [+], [-], [*] and unary
    [-] on values yields [norm dt] of the exact result. *)
Fixpoint _op_while (dt : dtype) (fuel : nat) (self other : CSRMatrix Z)
  (act : action) (i j : nat) (res : triple) : result (nat * triple) :=
  match fuel with
  | O => OutOfFuel
  | S fuel' =>
    let '(res_row, res_cl, res_data) := res in
    if negb (i <? length (row_ind self))%nat then Ok (j, res)
    else if (j =? length (data other))%nat then
      if negb (is_mul act)
      then Ok (j, (res_row ++ skipn i (row_ind self),
                   res_cl ++ skipn i (column_ind self),
                   res_data ++ skipn i (data self)))
      else Ok (j, res)
    else
      orj <- py_idx (row_ind other) j ;;
      sri <- py_idx (row_ind self) i ;;
      let ocj := py_idx (column_ind other) j in
      let sci := py_idx (column_ind self) i in
      lt <- coord_lt orj sri ocj sci ;;
      if (lt : bool) then
        match act with
        | act_add =>
            c <- ocj ;; d <- py_idx (data other) j ;;
            _op_while dt fuel' self other act i (S j)
              (res_row ++ [orj], res_cl ++ [c], res_data ++ [d])
        | act_sub =>
            c <- ocj ;; d <- py_idx (data other) j ;;
            _op_while dt fuel' self other act i (S j)
              (res_row ++ [orj], res_cl ++ [c], res_data ++ [norm dt (- d)])
        | act_mul =>
            _op_while dt fuel' self other act i (S j) res
        end
      else
        eq <- coord_eq orj sri ocj sci ;;
        if (eq : bool) then
          od <- py_idx (data other) j ;;
          sd <- py_idx (data self) i ;;
          c <- ocj ;;
          match act with
          | act_add =>
              if norm dt (od + sd) =? 0
              then _op_while dt fuel' self other act (S i) (S j) res
              else _op_while dt fuel' self other act (S i) (S j)
                     (res_row ++ [orj], res_cl ++ [c],
                      res_data ++ [norm dt (od + sd)])
          | act_sub =>
              if norm dt (sd - od) =? 0
              then _op_while dt fuel' self other act (S i) (S j) res
              else _op_while dt fuel' self other act (S i) (S j)
                     (res_row ++ [orj], res_cl ++ [c],
                      res_data ++ [norm dt (sd - od)])
          | act_mul =>
              _op_while dt fuel' self other act (S i) (S j)
                (res_row ++ [orj], res_cl ++ [c], res_data ++ [norm dt (od * sd)])
          end
        else
          gt <- coord_gt orj sri ocj sci ;;
          if (gt : bool) then
            if negb (is_mul act) then
              c <- sci ;; d <- py_idx (data self) i ;;
              _op_while dt fuel' self other act (S i) j
                (res_row ++ [sri], res_cl ++ [c], res_data ++ [d])
            else _op_while dt fuel' self other act (S i) j res
          else _op_while dt fuel' self other act i j res
  end.

(** The drain of [other] after the loop. *)
Definition _op_drain (dt : dtype) (other : CSRMatrix Z) (act : action)
  (j : nat) (res : triple) : triple :=
  let '(res_row, res_cl, res_data) := res in
  if (j <? length (data other))%nat && negb (is_mul act) then
    (res_row ++ skipn j (row_ind other),
     res_cl ++ skipn j (column_ind other),
     match act with
     | act_add => res_data ++ skipn j (data other)
     | _ => res_data ++ map (fun i => norm dt (- i)) (skipn j (data other))
     end)
  else res.

(** Every iteration that does not leave the loop advances a cursor, so
    this many iterations are enough (see [_op_while_fuel]). *)
Definition _op_fuel (self other : CSRMatrix Z) : nat :=
  S (length (row_ind self) + length (data other)).

Definition _op (dt : dtype) (self other : CSRMatrix Z) (act : action)
  : result triple :=
  jr <- _op_while dt (_op_fuel self other) self other act 0 0 ([], [], []) ;;
  Ok (_op_drain dt other act (fst jr) (snd jr)).

Definition __add__ (dt : dtype) (self other : CSRMatrix Z)
  : result (CSRMatrix Z) :=
  t <- _op dt self other act_add ;; __init__ (PyTuple3 t).

Definition __sub__ (dt : dtype) (self other : CSRMatrix Z)
  : result (CSRMatrix Z) :=
  t <- _op dt self other act_sub ;; __init__ (PyTuple3 t).

Definition __mul__ (dt : dtype) (self other : CSRMatrix Z)
  : result (CSRMatrix Z) :=
  t <- _op dt self other act_mul ;; __init__ (PyTuple3 t).

(** ** Scalar operations *)

Section TrueDivision.

(** Python's true division [i / other] of a stored value by the
    scalar: a float64 quotient, rounded as IEEE arithmetic rounds it,
    or the exception raised ([OverflowError] when a Python int is too
    large for a float).  Floats are not modelled: the type of the
    quotients and the division are taken as given. *)
Variable float : Type.
Variable py_truediv : Z -> Z -> exn + float.

(** The list comprehension [[i / other for i in self.data]]: the first
    division that raises ends it. *)
Fixpoint truediv_all (other : Z) (l : list Z) : result (list float) :=
  match l with
  | [] => Ok []
  | i :: l' =>
      match py_truediv i other with
      | inl e => Raise e
      | inr q => qs <- truediv_all other l' ;; Ok (q :: qs)
      end
  end.

(** [__truediv__]: [None] stands for the bare [return].  In Python the
    result shares its two index lists with [self]; here they are equal
    values. *)
Definition __truediv__ (self : CSRMatrix Z) (other : Z)
  : result (option (CSRMatrix float)) :=
  if other =? 0 then Ok None
  else
    qs <- truediv_all other (data self) ;;
    Ok (Some (init_tuple (row_ind self, column_ind self, qs))).

End TrueDivision.

(** [__rmul__]: [other] is a scalar of the element type [dt].  In Python
    the result shares its two index lists with [self]; here they are
    equal values. *)
Definition __rmul__ (dt : dtype) (self : CSRMatrix Z) (other : Z)
  : result (CSRMatrix Z) :=
  if other =? 0 then __init__ (PyTuple3 ([], [], []))
  else __init__ (PyTuple3 (row_ind self, column_ind self,
                           map (fun i => norm dt (i * other)) (data self))).

(** ** Matrix product *)

(** The accumulator [res]: a Python dict keyed by [(row, col)], which
    keeps its keys in insertion order. *)
Definition dict : Type := list ((Z * Z) * Z).

Definition key_eqb (a b : Z * Z) : bool :=
  (fst a =? fst b) && (snd a =? snd b).

(** [if k in res: res[k] += v else: res[k] = v], on values of the
    element type [dt]. *)
Fixpoint dict_accum (dt : dtype) (k : Z * Z) (v : Z) (res : dict) : dict :=
  match res with
  | [] => [(k, v)]
  | (k', v') :: res' =>
      if key_eqb k k' then (k', norm dt (v' + v)) :: res'
      else (k', v') :: dict_accum dt k v res'
  end.

Definition matmul_inner (dt : dtype) (t1 : Z * Z * Z) (res : dict)
  (t2 : Z * Z * Z) : dict :=
  let '(row_1, column_1, data_1) := t1 in
  let '(row_2, column_2, data_2) := t2 in
  if negb (column_1 =? row_2) then res
  else dict_accum dt (row_1, column_2) (norm dt (data_1 * data_2)) res.

Definition matmul_accumulate (dt : dtype) (self other : CSRMatrix Z) : dict :=
  fold_left (fun res t1 =>
    fold_left (matmul_inner dt t1)
      (zip3 (row_ind other) (column_ind other) (data other)) res)
    (zip3 (row_ind self) (column_ind self) (data self)) [].

(** The emission loop over [res.items()], skipping falsy sums. *)
Definition matmul_emit (res : dict) : triple :=
  fold_left (fun (acc : triple) (item : (Z * Z) * Z) =>
    let '(res_row, res_col, res_dat) := acc in
    if snd item =? 0 then acc
    else (res_row ++ [fst (fst item)], res_col ++ [snd (fst item)],
          res_dat ++ [snd item]))
    res ([], [], []).

Definition __matmul__ (dt : dtype) (self other : CSRMatrix Z)
  : result (CSRMatrix Z) :=
  a <- py_last (shape self) ;;
  b <- py_idx (shape other) 0 ;;
  if negb (a =? b) then Raise ValueError
  else __init__ (PyTuple3 (matmul_emit (matmul_accumulate dt self other))).

(** ** Densification *)

Definition to_dense_fill (D : ndarray) (it : list (Z * Z * Z)) : result ndarray :=
  fold_left (fun (acc : result ndarray) (t : Z * Z * Z) =>
    let '(i, j, d) := t in
    D' <- acc ;; np_setitem D' i j d)
    it (Ok D).

Definition to_dense (self : CSRMatrix Z) : result ndarray :=
  r <- py_last (row_ind self) ;;
  c <- py_last (column_ind self) ;;
  D <- np_zeros (r + 1) (c + 1) ;;
  to_dense_fill D (zip3 (row_ind self) (column_ind self) (data self)).

(** ** Vocabulary of the statements *)

(** The stored triplets, as the code's own [zip] enumerates them. *)
Definition entries {V : Type} (m : CSRMatrix V) : list (Z * Z * V) :=
  zip3 (row_ind m) (column_ind m) (data m).

Definition coord {V : Type} (t : Z * Z * V) : Z * Z := fst t.

Definition coords {V : Type} (m : CSRMatrix V) : list (Z * Z) :=
  map coord (entries m).

(** The three sequences are parallel: one row index and one column index
    per value. *)
Definition parallel {V : Type} (m : CSRMatrix V) : Prop :=
  length (row_ind m) = length (data m) /\
  length (column_ind m) = length (data m).

(** Row-major (lexicographic) order on coordinates. *)
Definition coord_ltb (a b : Z * Z) : bool :=
  (fst a <? fst b) || ((fst a =? fst b) && (snd a <? snd b)).

Fixpoint strictly_sorted (l : list (Z * Z)) : bool :=
  match l with
  | a :: l' =>
      match l' with
      | b :: _ => coord_ltb a b && strictly_sorted l'
      | [] => true
      end
  | [] => true
  end.

(** [(row, col)] lies inside a dense array's shape. *)
Definition in_bounds (D : ndarray) (key : Z * Z) : Prop :=
  0 <= fst key < Z.of_nat (nd_shape0 D) /\
  0 <= snd key < Z.of_nat (nd_shape1 D).

(** Matrix product, as the specification words it: the sum of [v1 * v2]
    over all pairs of triplets with [col1 = row2] landing on [key]. *)
Definition contribution (key : Z * Z) (p : (Z * Z * Z) * (Z * Z * Z)) : Z :=
  let '((row_1, column_1, data_1), (row_2, column_2, data_2)) := p in
  if (column_1 =? row_2) && key_eqb (row_1, column_2) key
  then data_1 * data_2 else 0.

Definition matmul_sum (A B : CSRMatrix Z) (key : Z * Z) : Z :=
  fold_right Z.add 0
    (map (contribution key) (list_prod (entries A) (entries B))).

(** The coordinate pairs hit by the nested scan, in scan order. *)
Definition pair_keys (p : (Z * Z * Z) * (Z * Z * Z)) : list (Z * Z) :=
  let '((row_1, column_1, _), (row_2, column_2, _)) := p in
  if column_1 =? row_2 then [(row_1, column_2)] else [].

Definition product_keys (A B : CSRMatrix Z) : list (Z * Z) :=
  flat_map pair_keys (list_prod (entries A) (entries B)).

(** A sequence of keys without its repetitions, each key kept where it
    first occurs; [seen] are the keys met before. *)
Fixpoint first_occurrences (seen l : list (Z * Z)) : list (Z * Z) :=
  match l with
  | [] => []
  | k :: l' =>
      if existsb (key_eqb k) seen then first_occurrences seen l'
      else k :: first_occurrences (seen ++ [k]) l'
  end.

(** The non-zero cells of a dense array, in row-major order. *)
Definition dense_row_cells (D : ndarray) (i : nat) : list (Z * Z * Z) :=
  flat_map (fun j => if nd_get D i j =? 0 then []
                     else [(Z.of_nat i, Z.of_nat j, nd_get D i j)])
    (seq 0 (nd_shape1 D)).

Definition dense_cells (D : ndarray) : list (Z * Z * Z) :=
  flat_map (dense_row_cells D) (seq 0 (nd_shape0 D)).

(** Three parallel sequences extended by a list of triplets. *)
Definition extend (st : triple) (l : list (Z * Z * Z)) : triple :=
  let '(r, c, d) := st in
  (r ++ map (fun t => fst (fst t)) l,
   c ++ map (fun t => snd (fst t)) l,
   d ++ map snd l).

Definition coord_lt_prop (a b : Z * Z) : Prop :=
  fst a < fst b \/ (fst a = fst b /\ snd a < snd b).

(** [res.get(k, 0)]: the sum accumulated under [k] so far. *)
Fixpoint dict_val (k : Z * Z) (res : dict) : Z :=
  match res with
  | [] => 0
  | (k', v') :: res' => if key_eqb k k' then v' else dict_val k res'
  end.

(** The body of the nested loops, on one pair of triplets. *)
Definition matmul_step (dt : dtype) (res : dict)
  (p : (Z * Z * Z) * (Z * Z * Z)) : dict :=
  matmul_inner dt (fst p) res (snd p).

Definition nonzero_item (item : (Z * Z) * Z) : bool := negb (snd item =? 0).

(** A matrix rebuilt from a list of triplets. *)
Definition of_entries (n : Z) (s : list Z) (e : list (Z * Z * Z)) : CSRMatrix Z :=
  mk_CSRMatrix n s
    (map (fun t => fst (fst t)) e) (map (fun t => snd (fst t)) e) (map snd e).

(** [__setitem__] read on the list of stored triplets: what the scan
    does to the list, and to the counter. *)
Fixpoint set_entries (key : Z * Z) (value : Z) (e : list (Z * Z * Z))
  : list (Z * Z * Z) :=
  match e with
  | [] => [(key, value)]
  | (c, d) :: e' =>
      if key_eqb key c then (if value =? 0 then e' else (c, value) :: e')
      else if coord_ltb c key then (key, value) :: (c, d) :: e'
      else (c, d) :: set_entries key value e'
  end.

Fixpoint set_nnz (key : Z * Z) (value : Z) (e : list (Z * Z * Z)) (n : Z) : Z :=
  match e with
  | [] => n
  | (c, d) :: e' =>
      if key_eqb key c then (if value =? 0 then n - 1 else n)
      else if coord_ltb c key then n + 1
      else set_nnz key value e' n
  end.

(** The coordinate merge of [_op] read on two lists of triplets: the
    first list is [self]'s, the second [other]'s. *)
Definition merge_only_other (dt : dtype) (act : action) (b : Z * Z * Z)
  : list (Z * Z * Z) :=
  match act with
  | act_add => [b]
  | act_sub => [(fst b, norm dt (- snd b))]
  | act_mul => []
  end.

Definition merge_only_self (act : action) (a : Z * Z * Z) : list (Z * Z * Z) :=
  if is_mul act then [] else [a].

Definition merge_both (dt : dtype) (act : action) (a b : Z * Z * Z)
  : list (Z * Z * Z) :=
  match act with
  | act_add => if norm dt (snd b + snd a) =? 0 then []
               else [(fst b, norm dt (snd b + snd a))]
  | act_sub => if norm dt (snd a - snd b) =? 0 then []
               else [(fst b, norm dt (snd a - snd b))]
  | act_mul => [(fst b, norm dt (snd b * snd a))]
  end.

Fixpoint merge_entries (dt : dtype) (act : action) (la : list (Z * Z * Z))
  : list (Z * Z * Z) -> list (Z * Z * Z) :=
  match la with
  | [] => fun lb => flat_map (merge_only_other dt act) lb
  | a :: la' =>
      fix go (lb : list (Z * Z * Z)) : list (Z * Z * Z) :=
        match lb with
        | [] => if is_mul act then [] else a :: la'
        | b :: lb' =>
            if coord_ltb (fst b) (fst a)
            then merge_only_other dt act b ++ go lb'
            else if key_eqb (fst b) (fst a)
                 then merge_both dt act a b ++ merge_entries dt act la' lb'
                 else merge_only_self act a ++ merge_entries dt act la' lb
        end
  end.

(** The value an action computes, in the element type, from the two
    cells at one coordinate. *)
Definition apply_action (dt : dtype) (act : action) (x y : Z) : Z :=
  match act with
  | act_add => norm dt (x + y)
  | act_sub => norm dt (x - y)
  | act_mul => norm dt (x * y)
  end.

(** Every stored value of the matrix is of the element type. *)
Definition values_of_dtype (dt : dtype) (m : CSRMatrix Z) : Prop :=
  Forall (of_dtype dt) (data m).

(** An integer that a float64 cell holds exactly. *)
Definition float64_exact (v : Z) : Prop := Z.abs v <= 2 ^ 53.

(** The states of a list-backed matrix: one built from a dense array by
    the ndarray branch of the constructor (which fills three fresh Python
    lists) and changed since by element assignments to that matrix only.
    Its three sequences are three distinct lists, on which [pop],
    [insert] and [append] are defined.  Matrices built from a tuple
    (whose sequences may be numpy arrays, or one object given twice) and
    matrices whose lists are changed through another matrix sharing them
    (the result of a scalar operation shares its operand's index lists)
    are outside it. *)
Inductive list_backed : CSRMatrix Z -> Prop :=
| list_backed_dense (D : ndarray) : list_backed (init_ndarray D)
| list_backed_setitem (a a' : CSRMatrix Z) (key : Z * Z) (value : Z) :
    list_backed a -> __setitem__ a key value = Ok a' -> list_backed a'.

(** A division used on the fixtures: the quotient is left unevaluated,
    as the pair of its operands. *)
Definition quotient_of (i other : Z) : exn + Z * Z := inr (i, other).

(** Sum of [f k] for [k] in [0 .. n-1]. *)
Fixpoint sum_upto (f : nat -> Z) (n : nat) : Z :=
  match n with
  | O => 0
  | S n' => sum_upto f n' + f n'
  end.

(** Some fixtures. *)
Definition dense_1000 : ndarray := mk_ndarray 2 2 [[1; 0]; [0; 0]].
Definition dense_0110 : ndarray := mk_ndarray 2 2 [[0; 1]; [1; 0]].
Definition dense_1002 : ndarray := mk_ndarray 2 2 [[1; 0]; [0; 2]].
Definition dense_0340 : ndarray := mk_ndarray 2 2 [[0; 3]; [4; 0]].
Definition dense_zero : ndarray := mk_ndarray 1 1 [[0]].
Definition dense_one : ndarray := mk_ndarray 1 1 [[1]].
Definition dense_row10 : ndarray := mk_ndarray 1 2 [[1; 0]].
Definition dense_row11 : ndarray := mk_ndarray 1 2 [[1; 1]].
Definition dense_big : ndarray := mk_ndarray 1 1 [[2 ^ 62]].
Definition dense_four : ndarray := mk_ndarray 1 1 [[4]].

(** Matrices built from tuples of Python lists of Python integers. *)
Definition lists_1002 : CSRMatrix Z := init_tuple ([0; 1], [0; 1], [1; 2]).
Definition lists_1000 : CSRMatrix Z := init_tuple ([0], [0], [1]).
Definition lists_big : CSRMatrix Z := init_tuple ([0], [0], [2 ^ 62]).

(** * Theorems *)

(** ** Element types *)

Lemma wrap64_periodic (a q : Z) : wrap64 (a + q * 2 ^ 64) = wrap64 a.
Proof.
  unfold wrap64.
  replace (a + q * 2 ^ 64 + 2 ^ 63) with (a + 2 ^ 63 + q * 2 ^ 64) by lia.
  now rewrite Z_mod_plus_full.
Qed.

Lemma wrap64_quotient (a : Z) : exists q, wrap64 a = a + q * 2 ^ 64.
Proof.
  unfold wrap64. exists (- ((a + 2 ^ 63) / 2 ^ 64)).
  pose proof (Z_div_mod_eq_full (a + 2 ^ 63) (2 ^ 64)). lia.
Qed.

Lemma wrap64_range (a : Z) : - 2 ^ 63 <= wrap64 a < 2 ^ 63.
Proof.
  unfold wrap64. pose proof (Z.mod_pos_bound (a + 2 ^ 63) (2 ^ 64)). lia.
Qed.

Lemma wrap64_small (a : Z) : - 2 ^ 63 <= a < 2 ^ 63 -> wrap64 a = a.
Proof. intros H. unfold wrap64. rewrite Z.mod_small; lia. Qed.

(** The values of [int64] are the integers of 64-bit two's complement. *)
Lemma of_dtype_int64 (v : Z) : of_dtype np_int64 v <-> - 2 ^ 63 <= v < 2 ^ 63.
Proof.
  unfold of_dtype, norm. split.
  - intros <-. apply wrap64_range.
  - apply wrap64_small.
Qed.

Lemma norm_0 (dt : dtype) : norm dt 0 = 0.
Proof. destruct dt; reflexivity. Qed.

Lemma norm_idem (dt : dtype) (a : Z) : norm dt (norm dt a) = norm dt a.
Proof.
  destruct dt; [reflexivity|]. cbn [norm].
  destruct (wrap64_quotient a) as [q Hq].
  transitivity (wrap64 (a + q * 2 ^ 64)); [now rewrite Hq | apply wrap64_periodic].
Qed.

Lemma norm_add_l (dt : dtype) (a b : Z) : norm dt (norm dt a + b) = norm dt (a + b).
Proof.
  destruct dt; [reflexivity|]. cbn [norm].
  destruct (wrap64_quotient a) as [q ->].
  replace (a + q * 2 ^ 64 + b) with (a + b + q * 2 ^ 64) by lia.
  apply wrap64_periodic.
Qed.

Lemma norm_add_r (dt : dtype) (a b : Z) : norm dt (a + norm dt b) = norm dt (a + b).
Proof. now rewrite Z.add_comm, norm_add_l, Z.add_comm. Qed.

Lemma norm_mul_l (dt : dtype) (a b : Z) : norm dt (norm dt a * b) = norm dt (a * b).
Proof.
  destruct dt; [reflexivity|]. cbn [norm].
  destruct (wrap64_quotient a) as [q ->].
  replace ((a + q * 2 ^ 64) * b) with (a * b + (q * b) * 2 ^ 64) by lia.
  apply wrap64_periodic.
Qed.

Lemma norm_sub_l (dt : dtype) (a b : Z) : norm dt (norm dt a - b) = norm dt (a - b).
Proof. unfold Z.sub. apply norm_add_l. Qed.

(** A non-zero value of the element type has a non-zero opposite in it. *)
Lemma norm_opp_nonzero (dt : dtype) (b : Z) :
  of_dtype dt b -> b <> 0 -> norm dt (- b) <> 0.
Proof.
  destruct dt; cbn [norm]; [lia|].
  intros Hb Hnz H. apply of_dtype_int64 in Hb.
  destruct (wrap64_quotient (- b)) as [q Hq]. rewrite H in Hq. nia.
Qed.

Lemma of_dtype_norm (dt : dtype) (a : Z) : of_dtype dt (norm dt a).
Proof. apply norm_idem. Qed.

Lemma of_dtype_0 (dt : dtype) : of_dtype dt 0.
Proof. apply norm_0. Qed.

(** ** Element access *)

Lemma getitem_loop_absent (item : Z * Z) (it : list (Z * Z * Z)) :
  (forall v, ~ In (fst item, snd item, v) it) -> getitem_loop item it = 0.
Proof.
  induction it as [|[[i j] d] it IH]; intros Habs; simpl; [reflexivity|].
  destruct (Z.eqb_spec (fst item) i) as [Hi|Hi];
    destruct (Z.eqb_spec (snd item) j) as [Hj|Hj]; simpl;
    try (apply IH; intros v Hv; apply (Habs v); right; exact Hv).
  exfalso. apply (Habs d). left. now rewrite Hi, Hj.
Qed.

Lemma getitem_loop_first (item : Z * Z) (it : list (Z * Z * Z)) (k : nat) (v : Z) :
  nth_error it k = Some (fst item, snd item, v) ->
  (forall k' t, (k' < k)%nat -> nth_error it k' = Some t -> coord t <> item) ->
  getitem_loop item it = v.
Proof.
  revert k. induction it as [|[[i j] d] it IH]; intros k Hk Hfirst.
  - destruct k; discriminate.
  - destruct k as [|k]; simpl in *.
    + injection Hk as <- <- <-. now rewrite !Z.eqb_refl.
    + destruct (Z.eqb_spec (fst item) i) as [Hi|Hi];
        destruct (Z.eqb_spec (snd item) j) as [Hj|Hj]; simpl;
        try (apply (IH k Hk); intros k' t Hlt Ht;
             apply (Hfirst (S k') t); [lia | exact Ht]).
      exfalso. apply (Hfirst 0%nat (i, j, d)); [lia | reflexivity |].
      unfold coord. simpl. destruct item; simpl in *; congruence.
Qed.

(** C10.  Element access is a total function of the matrix and the
    coordinate pair (no bounds are consulted, nothing can raise): it
    returns the value of the first stored triplet whose (row, col) equals
    the requested pair, and 0 when no stored triplet has that pair. *)
Theorem getitem_total_first_match_or_zero (self : CSRMatrix Z) (item : Z * Z) :
  (forall k v,
      nth_error (entries self) k = Some (fst item, snd item, v) ->
      (forall k' t, (k' < k)%nat ->
         nth_error (entries self) k' = Some t -> coord t <> item) ->
      __getitem__ self item = v) /\
  ((forall v, ~ In (fst item, snd item, v) (entries self)) ->
   __getitem__ self item = 0).
Proof.
  split.
  - intros k v Hk Hfirst. exact (getitem_loop_first item _ k v Hk Hfirst).
  - intros Habs. exact (getitem_loop_absent item _ Habs).
Qed.

Lemma getitem_total_first_match_or_zero_witness :
  __getitem__ (init_ndarray dense_1002) (1, 1) = 2 /\
  __getitem__ (init_ndarray dense_1002) (7, -3) = 0.
Proof.
  destruct (getitem_total_first_match_or_zero (init_ndarray dense_1002) (1, 1))
    as [Hhit _].
  destruct (getitem_total_first_match_or_zero (init_ndarray dense_1002) (7, -3))
    as [_ Hmiss].
  split.
  - apply (Hhit 1%nat 2); [reflexivity|].
    intros k' t Hlt Ht. assert (k' = 0%nat) by lia. subst k'.
    vm_compute in Ht. injection Ht as <-. discriminate.
  - apply Hmiss. intros v Hv. vm_compute in Hv.
    destruct Hv as [Hv|[Hv|[]]]; discriminate.
Defined.

(** ** Construction *)

Lemma init_tuple_shape {V : Type} (t : list Z * list Z * list V) :
  shape (init_tuple t) = [].
Proof. destruct t as [[r c] d]. reflexivity. Qed.

Lemma init_tuple_nnz {V : Type} (t : list Z * list Z * list V) :
  nnz (init_tuple t) = Z.of_nat (length (data (init_tuple t))).
Proof. destruct t as [[r c] d]. reflexivity. Qed.

Lemma init_ndarray_nnz (D : ndarray) :
  nnz (init_ndarray D) = Z.of_nat (length (data (init_ndarray D))).
Proof. unfold init_ndarray. destruct (dense_scan D) as [[r c] d]. reflexivity. Qed.

Lemma init_ndarray_shape (D : ndarray) :
  shape (init_ndarray D) = [Z.of_nat (nd_shape0 D); Z.of_nat (nd_shape1 D)].
Proof. unfold init_ndarray. destruct (dense_scan D) as [[r c] d]. reflexivity. Qed.

(** Whatever [__init__] returns has [nnz] equal to the number of stored
    values. *)
Lemma init_nnz (x : init_matrix_representation) (m : CSRMatrix Z) :
  __init__ x = Ok m -> nnz m = Z.of_nat (length (data m)).
Proof.
  destruct x as [t|D|]; simpl; intros H; inversion H; subst.
  - apply init_tuple_nnz.
  - apply init_ndarray_nnz.
Qed.

Lemma bind_Ok {A B : Type} (m : result A) (f : A -> result B) (b : B) :
  bind m f = Ok b -> exists a, m = Ok a /\ f a = Ok b.
Proof. destruct m as [a|e|]; simpl; intros H; try discriminate. now exists a. Qed.

Lemma via_tuple_shape (r : result triple) (M : CSRMatrix Z) :
  (t <- r ;; __init__ (PyTuple3 t)) = Ok M -> shape M = [].
Proof.
  intros H. apply bind_Ok in H. destruct H as (t & _ & Ht).
  simpl in Ht. inversion Ht. apply init_tuple_shape.
Qed.

Lemma zip3_components (l : dict) :
  zip3 (map (fun it => fst (fst it)) l) (map (fun it => snd (fst it)) l) (map snd l)
  = l.
Proof.
  induction l as [|[[r c] v] l IH]; [reflexivity|].
  cbn [map zip3 fst snd]. now rewrite IH.
Qed.

Lemma zip3_data {V : Type} (r c : list Z) (d : list V) :
  length r = length d -> length c = length d -> map snd (zip3 r c d) = d.
Proof.
  revert r c. induction d as [|x d IH]; intros r c Hr Hc;
    destruct r, c; try discriminate; [reflexivity|].
  cbn [zip3 map snd]. f_equal. apply IH; simpl in *; lia.
Qed.

Lemma extend_nil (st : triple) : extend st [] = st.
Proof. destruct st as [[r c] d]. cbn. now rewrite !app_nil_r. Qed.

Lemma extend_app (st : triple) (l1 l2 : list (Z * Z * Z)) :
  extend st (l1 ++ l2) = extend (extend st l1) l2.
Proof.
  destruct st as [[r c] d]. cbn [extend]. now rewrite !map_app, !app_assoc.
Qed.

(** The scan of the ndarray branch appends exactly the non-zero cells,
    row by row. *)
Lemma dense_scan_row (D : ndarray) (i : nat) (js : list nat) (st : triple) :
  fold_left (fun (st : triple) j =>
      let '(r, c, d) := st in
      if negb (nd_get D i j =? 0)
      then (r ++ [Z.of_nat i], c ++ [Z.of_nat j], d ++ [nd_get D i j])
      else st) js st
  = extend st
      (flat_map (fun j => if nd_get D i j =? 0 then []
                          else [(Z.of_nat i, Z.of_nat j, nd_get D i j)]) js).
Proof.
  revert st. induction js as [|j js IH]; intros st; cbn [fold_left flat_map].
  - now rewrite extend_nil.
  - rewrite IH, extend_app. f_equal.
    destruct st as [[r c] d]. destruct (nd_get D i j =? 0); cbn [negb].
    + now rewrite extend_nil.
    + reflexivity.
Qed.

Lemma dense_scan_cells (D : ndarray) :
  dense_scan D = extend ([], [], []) (dense_cells D).
Proof.
  unfold dense_scan, dense_cells.
  generalize (seq 0 (nd_shape0 D)) as rows. generalize (([], [], []) : triple).
  intros st rows. revert st.
  induction rows as [|i rows IH]; intros st; cbn [fold_left flat_map].
  - now rewrite extend_nil.
  - rewrite extend_app, <- IH. f_equal. apply dense_scan_row.
Qed.

Lemma init_ndarray_entries (D : ndarray) :
  entries (init_ndarray D) = dense_cells D /\ parallel (init_ndarray D).
Proof.
  unfold init_ndarray. rewrite dense_scan_cells. cbn [extend app].
  unfold entries, parallel. cbn [row_ind column_ind data].
  rewrite zip3_components, !length_map. repeat split.
Qed.

Lemma StronglySorted_app {A : Type} (R : A -> A -> Prop) (l1 l2 : list A) :
  StronglySorted R l1 -> StronglySorted R l2 ->
  (forall x y, In x l1 -> In y l2 -> R x y) ->
  StronglySorted R (l1 ++ l2).
Proof.
  intros H1 H2 Hx. induction H1 as [|a l1 Hs IH Hall]; [exact H2|].
  cbn [app]. constructor.
  - apply IH. intros x y Hin. apply Hx. now right.
  - apply Forall_app. split; [exact Hall|].
    apply Forall_forall. intros y Hy. apply Hx; [now left | exact Hy].
Qed.

Lemma StronglySorted_flat_map_seq {A : Type} (R : A -> A -> Prop)
  (f : nat -> list A) (a n : nat) :
  (forall i, StronglySorted R (f i)) ->
  (forall i i' x y, (i < i')%nat -> In x (f i) -> In y (f i') -> R x y) ->
  StronglySorted R (flat_map f (seq a n)).
Proof.
  intros Hf Hx. revert a. induction n as [|n IH]; intros a; cbn [seq flat_map].
  - constructor.
  - apply StronglySorted_app; [apply Hf | apply IH |].
    intros x y Hin Hy. apply in_flat_map in Hy. destruct Hy as (i' & Hi' & Hy).
    apply in_seq in Hi'. apply (Hx a i'); [lia | exact Hin | exact Hy].
Qed.

Lemma StronglySorted_map {A B : Type} (R : B -> B -> Prop) (f : A -> B)
  (l : list A) :
  StronglySorted (fun x y => R (f x) (f y)) l -> StronglySorted R (map f l).
Proof.
  induction 1 as [|a l Hs IH Hall]; cbn [map]; constructor; [exact IH|].
  apply Forall_map. exact Hall.
Qed.

Lemma strictly_sorted_of_StronglySorted (l : list (Z * Z)) :
  StronglySorted coord_lt_prop l -> strictly_sorted l = true.
Proof.
  induction 1 as [|a l Hs IH Hall]; [reflexivity|].
  cbn [strictly_sorted]. destruct l as [|b l]; [reflexivity|].
  rewrite IH, andb_true_r. inversion Hall as [|? ? Hab _]; subst.
  unfold coord_ltb, coord_lt_prop in *.
  destruct Hab as [H|[H1 H2]].
  - apply orb_true_iff. left. now apply Z.ltb_lt.
  - apply orb_true_iff. right. apply andb_true_iff.
    split; [now apply Z.eqb_eq | now apply Z.ltb_lt].
Qed.

Lemma dense_row_cells_In (D : ndarray) (i : nat) (t : Z * Z * Z) :
  In t (dense_row_cells D i) <->
  exists j, (j < nd_shape1 D)%nat /\ nd_get D i j <> 0 /\
            t = (Z.of_nat i, Z.of_nat j, nd_get D i j).
Proof.
  unfold dense_row_cells. rewrite in_flat_map. split.
  - intros (j & Hj & Ht). apply in_seq in Hj. exists j.
    destruct (Z.eqb_spec (nd_get D i j) 0) as [E|E]; [destruct Ht|].
    destruct Ht as [<-|[]]. repeat split; [lia | exact E].
  - intros (j & Hj & Hnz & ->). exists j. split; [apply in_seq; lia|].
    destruct (Z.eqb_spec (nd_get D i j) 0) as [E|E]; [contradiction | now left].
Qed.

Lemma dense_cells_In (D : ndarray) (t : Z * Z * Z) :
  In t (dense_cells D) <->
  exists i j, (i < nd_shape0 D)%nat /\ (j < nd_shape1 D)%nat /\
              nd_get D i j <> 0 /\
              t = (Z.of_nat i, Z.of_nat j, nd_get D i j).
Proof.
  unfold dense_cells. rewrite in_flat_map. split.
  - intros (i & Hi & Ht). apply in_seq in Hi.
    apply dense_row_cells_In in Ht. destruct Ht as (j & Hj & Hnz & ->).
    exists i, j. repeat split; try assumption; lia.
  - intros (i & j & Hi & Hj & Hnz & ->). exists i. split; [apply in_seq; lia|].
    apply dense_row_cells_In. now exists j.
Qed.

(** The ndarray branch of the constructor establishes the storage
    invariants: parallel sequences, strictly increasing row-major
    coordinates, no stored zero. *)
Lemma init_ndarray_invariants (D : ndarray) :
  parallel (init_ndarray D) /\
  strictly_sorted (coords (init_ndarray D)) = true /\
  Forall (fun t => snd t <> 0) (entries (init_ndarray D)).
Proof.
  destruct (init_ndarray_entries D) as [Hent Hpar].
  split; [exact Hpar|]. unfold coords. rewrite Hent. split.
  - apply strictly_sorted_of_StronglySorted, StronglySorted_map.
    unfold dense_cells. apply StronglySorted_flat_map_seq.
    + intros i. unfold dense_row_cells. apply StronglySorted_flat_map_seq.
      * intros j. destruct (nd_get D i j =? 0); repeat constructor.
      * intros j j' x y Hjj Hx Hy.
        destruct (nd_get D i j =? 0); [destruct Hx|].
        destruct (nd_get D i j' =? 0); [destruct Hy|].
        destruct Hx as [<-|[]], Hy as [<-|[]].
        right. cbn. split; [reflexivity | lia].
    + intros i i' x y Hii Hx Hy.
      apply dense_row_cells_In in Hx, Hy.
      destruct Hx as (j & _ & _ & ->), Hy as (j' & _ & _ & ->).
      left. cbn. lia.
  - apply Forall_forall. intros t Ht. apply dense_cells_In in Ht.
    destruct Ht as (i & j & _ & _ & Hnz & ->). exact Hnz.
Qed.

(** C9.  The tuple branch of the constructor leaves [shape] at its
    initial value [[]]; every operator builds its result through that
    branch, so every matrix returned by [+], [-], element-wise [*], [@],
    scalar multiplication or scalar division has the empty shape,
    whatever the shapes of the operands. *)
Theorem tuple_constructed_shape_is_empty :
  (forall t, exists m, __init__ (PyTuple3 t) = Ok m /\ shape m = []) /\
  (forall dt self other M, __add__ dt self other = Ok M -> shape M = []) /\
  (forall dt self other M, __sub__ dt self other = Ok M -> shape M = []) /\
  (forall dt self other M, __mul__ dt self other = Ok M -> shape M = []) /\
  (forall dt self other M, __matmul__ dt self other = Ok M -> shape M = []) /\
  (forall dt self alpha M, __rmul__ dt self alpha = Ok M -> shape M = []) /\
  (forall (float : Type) (py_truediv : Z -> Z -> exn + float) self alpha M,
      __truediv__ float py_truediv self alpha = Ok (Some M) -> shape M = []).
Proof.
  repeat split.
  - intros t. exists (init_tuple t). split; [reflexivity | apply init_tuple_shape].
  - intros dt self other M. apply via_tuple_shape.
  - intros dt self other M. apply via_tuple_shape.
  - intros dt self other M. apply via_tuple_shape.
  - intros dt self other M H. unfold __matmul__ in H.
    apply bind_Ok in H. destruct H as (a & _ & H).
    apply bind_Ok in H. destruct H as (b & _ & H).
    destruct (negb (a =? b)); [discriminate|].
    simpl in H. inversion H. apply init_tuple_shape.
  - intros dt self alpha M H. unfold __rmul__ in H.
    destruct (alpha =? 0); inversion H; reflexivity.
  - intros float py_truediv self alpha M H. unfold __truediv__ in H.
    destruct (alpha =? 0); [discriminate|].
    apply bind_Ok in H. destruct H as (qs & _ & H). inversion H. reflexivity.
Qed.

Lemma tuple_constructed_shape_is_empty_witness :
  shape (init_ndarray dense_1002) = [2; 2] /\
  shape (init_ndarray dense_0340) = [2; 2] /\
  forall M,
    (__add__ np_int64 (init_ndarray dense_1002) (init_ndarray dense_0340) = Ok M \/
     __sub__ np_int64 (init_ndarray dense_1002) (init_ndarray dense_0340) = Ok M \/
     __mul__ np_int64 (init_ndarray dense_1002) (init_ndarray dense_0340) = Ok M \/
     __matmul__ np_int64 (init_ndarray dense_1002) (init_ndarray dense_0340) = Ok M \/
     __rmul__ np_int64 (init_ndarray dense_1002) 3 = Ok M) ->
    shape M = [].
Proof.
  destruct tuple_constructed_shape_is_empty
    as (_ & Hadd & Hsub & Hmul & Hmat & Hrmul & _).
  split; [reflexivity|]. split; [reflexivity|].
  intros M [H|[H|[H|[H|H]]]].
  - exact (Hadd _ _ _ M H).
  - exact (Hsub _ _ _ M H).
  - exact (Hmul _ _ _ M H).
  - exact (Hmat _ _ _ M H).
  - exact (Hrmul _ _ _ M H).
Defined.

(** ** Scalar division *)

Lemma truediv_all_Ok (float : Type) (py_truediv : Z -> Z -> exn + float)
  (other : Z) (l : list Z) (qs : list float) :
  truediv_all float py_truediv other l = Ok qs <->
  Forall2 (fun v q => py_truediv v other = inr q) l qs.
Proof.
  revert qs. induction l as [|v l IH]; intros qs; cbn [truediv_all].
  - split; [intros H; inversion H; constructor | intros H; now inversion H].
  - split.
    + intros H. destruct (py_truediv v other) as [e|q] eqn:Hq; [discriminate|].
      apply bind_Ok in H. destruct H as (qs' & Hqs & H). inversion H; subst.
      constructor; [exact Hq | now apply IH].
    + intros H. inversion H as [|? q ? qs' Hq Hqs]; subst.
      rewrite Hq. apply IH in Hqs. now rewrite Hqs.
Qed.

Lemma truediv_all_Raise (float : Type) (py_truediv : Z -> Z -> exn + float)
  (other : Z) (l : list Z) (v : Z) (e : exn) :
  In v l -> py_truediv v other = inl e ->
  exists e', truediv_all float py_truediv other l = Raise e'.
Proof.
  induction l as [|x l IH]; intros Hin Hv; [destruct Hin|].
  cbn [truediv_all].
  destruct (py_truediv x other) as [e'|q] eqn:Hx.
  - now exists e'.
  - destruct Hin as [->|Hin]; [congruence|].
    destruct (IH Hin Hv) as [e' ->]. now exists e'.
Qed.

(** C8 (as the code has it).  For a non-zero scalar, when Python's true
    division of every stored value by the scalar yields a float, the
    call returns a matrix with the same row and column sequences whose
    values are those float quotients, in order, with [nnz] their number;
    when one of the divisions raises, the call raises; for the scalar 0
    the guard returns no value ([None]) and nothing is raised. *)
Theorem truediv_nonzero_divides_zero_returns_none
  (float : Type) (py_truediv : Z -> Z -> exn + float)
  (self : CSRMatrix Z) (alpha : Z) :
  (alpha <> 0 ->
   forall qs, Forall2 (fun v q => py_truediv v alpha = inr q) (data self) qs ->
     exists M, __truediv__ float py_truediv self alpha = Ok (Some M) /\
       row_ind M = row_ind self /\
       column_ind M = column_ind self /\
       data M = qs /\
       nnz M = Z.of_nat (length (data self))) /\
  (alpha <> 0 ->
   forall v e,
     In v (data self) -> py_truediv v alpha = inl e ->
     exists e', __truediv__ float py_truediv self alpha = Raise e') /\
  (alpha = 0 -> __truediv__ float py_truediv self alpha = Ok None).
Proof.
  split; [|split].
  - intros Ha qs Hqs. unfold __truediv__.
    destruct (Z.eqb_spec alpha 0) as [E|_]; [contradiction|].
    pose proof (Forall2_length Hqs) as Hlen.
    apply truediv_all_Ok in Hqs. rewrite Hqs. cbn [bind].
    eexists. split; [reflexivity|]. cbn [init_tuple]. repeat split.
    unfold nnz. cbn [_nnz]. now rewrite Hlen.
  - intros Ha v e Hin Hv. unfold __truediv__.
    destruct (Z.eqb_spec alpha 0) as [E|_]; [contradiction|].
    destruct (truediv_all_Raise float py_truediv alpha (data self) v e Hin Hv)
      as [e' ->].
    now exists e'.
  - intros ->. reflexivity.
Qed.

Lemma truediv_nonzero_divides_zero_returns_none_witness :
  (exists M, __truediv__ (Z * Z) quotient_of (init_ndarray dense_1002) 2
             = Ok (Some M) /\
     row_ind M = [0; 1] /\ column_ind M = [0; 1] /\
     data M = [(1, 2); (2, 2)]) /\
  (exists e', __truediv__ (Z * Z)
                (fun i other => if i =? 2 then inl OverflowError
                                else quotient_of i other)
                (init_ndarray dense_1002) 2 = Raise e') /\
  __truediv__ (Z * Z) quotient_of (init_ndarray dense_1002) 0 = Ok None.
Proof.
  split; [|split].
  - destruct (truediv_nonzero_divides_zero_returns_none
                (Z * Z) quotient_of (init_ndarray dense_1002) 2) as [Hnz _].
    destruct (Hnz ltac:(lia) [(1, 2); (2, 2)]) as (M & HM & Hr & Hc & Hd & _).
    { repeat constructor. }
    exists M. rewrite Hr, Hc, Hd. repeat split. exact HM.
  - destruct (truediv_nonzero_divides_zero_returns_none
                (Z * Z)
                (fun i other => if i =? 2 then inl OverflowError
                                else quotient_of i other)
                (init_ndarray dense_1002) 2) as (_ & Hraise & _).
    apply (Hraise ltac:(lia) 2 OverflowError).
    + right. left. reflexivity.
    + reflexivity.
  - apply (truediv_nonzero_divides_zero_returns_none
             (Z * Z) quotient_of (init_ndarray dense_1002) 0).
    reflexivity.
Defined.

(** C8, the claim as written fails: dividing by 0 raises nothing, the
    call returns [None]; no value is divided on this path. *)
Lemma truediv_by_zero_does_not_raise :
  __truediv__ (Z * Z) quotient_of (init_ndarray dense_1002) 0 = Ok None /\
  forall e, __truediv__ (Z * Z) quotient_of (init_ndarray dense_1002) 0 <> Raise e.
Proof. split; [reflexivity | intros e H; discriminate H]. Qed.

(** ** The merge loop *)

Lemma py_idx_nth {A : Type} (l : list A) (i : nat) (d : A) :
  (i < length l)%nat -> py_idx l i = Ok (nth i l d).
Proof.
  intros H. unfold py_idx.
  destruct (nth_error l i) as [a|] eqn:E.
  - now rewrite (nth_error_nth l i d E).
  - apply nth_error_None in E. lia.
Qed.

(** One iteration of the loop on parallel operands, with both cursors
    inside their sequences: no subscript raises, and exactly one of the
    three comparisons holds. *)
Lemma _op_while_step (dt : dtype) (self other : CSRMatrix Z) (act : action)
  (fuel i j : nat) (rr rc rd : list Z) :
  parallel self -> parallel other ->
  (i < length (row_ind self))%nat -> (j < length (data other))%nat ->
  let sr := nth i (row_ind self) 0 in
  let sc := nth i (column_ind self) 0 in
  let sd := nth i (data self) 0 in
  let or := nth j (row_ind other) 0 in
  let oc := nth j (column_ind other) 0 in
  let od := nth j (data other) 0 in
  _op_while dt (S fuel) self other act i j (rr, rc, rd) =
  if coord_ltb (or, oc) (sr, sc) then
    match act with
    | act_add => _op_while dt fuel self other act i (S j)
                   (rr ++ [or], rc ++ [oc], rd ++ [od])
    | act_sub => _op_while dt fuel self other act i (S j)
                   (rr ++ [or], rc ++ [oc], rd ++ [norm dt (- od)])
    | act_mul => _op_while dt fuel self other act i (S j) (rr, rc, rd)
    end
  else if key_eqb (or, oc) (sr, sc) then
    match act with
    | act_add =>
        if norm dt (od + sd) =? 0
        then _op_while dt fuel self other act (S i) (S j) (rr, rc, rd)
        else _op_while dt fuel self other act (S i) (S j)
               (rr ++ [or], rc ++ [oc], rd ++ [norm dt (od + sd)])
    | act_sub =>
        if norm dt (sd - od) =? 0
        then _op_while dt fuel self other act (S i) (S j) (rr, rc, rd)
        else _op_while dt fuel self other act (S i) (S j)
               (rr ++ [or], rc ++ [oc], rd ++ [norm dt (sd - od)])
    | act_mul => _op_while dt fuel self other act (S i) (S j)
                   (rr ++ [or], rc ++ [oc], rd ++ [norm dt (od * sd)])
    end
  else if negb (is_mul act)
       then _op_while dt fuel self other act (S i) j
              (rr ++ [sr], rc ++ [sc], rd ++ [sd])
       else _op_while dt fuel self other act (S i) j (rr, rc, rd).
Proof.
  intros [Hsr Hsc] [Hor Hoc] Hi Hj sr sc sd or oc od.
  cbn [_op_while].
  destruct (Nat.ltb_spec i (length (row_ind self))) as [_|]; [|lia].
  destruct (Nat.eqb_spec j (length (data other))) as [|_]; [lia|].
  cbn [negb].
  rewrite (py_idx_nth (row_ind other) j 0) by lia.
  rewrite (py_idx_nth (row_ind self) i 0) by lia.
  rewrite (py_idx_nth (column_ind other) j 0) by lia.
  rewrite (py_idx_nth (column_ind self) i 0) by lia.
  rewrite (py_idx_nth (data other) j 0) by lia.
  rewrite (py_idx_nth (data self) i 0) by lia.
  fold sr sc sd or oc od.
  unfold coord_lt, coord_eq, coord_gt, coord_ltb, key_eqb. cbn [bind fst snd].
  rewrite !Z.gtb_ltb.
  destruct (Z.ltb_spec or sr), (Z.eqb_spec or sr), (Z.ltb_spec sr or);
    try lia; cbn [bind orb andb];
    try (destruct act; reflexivity).
  destruct (Z.ltb_spec oc sc), (Z.eqb_spec oc sc), (Z.ltb_spec sc oc);
    try lia; cbn [bind orb andb];
    destruct act; reflexivity.
Qed.

(** The loop always leaves within its budget on parallel operands, and
    never raises there. *)
Lemma _op_while_total (dt : dtype) (self other : CSRMatrix Z) (act : action) :
  parallel self -> parallel other ->
  forall fuel i j res,
    (j <= length (data other))%nat ->
    (length (row_ind self) - i + (length (data other) - j) < fuel)%nat ->
    exists jr, _op_while dt fuel self other act i j res = Ok jr.
Proof.
  intros Hs Ho. induction fuel as [|fuel IH]; intros i j [[rr rc] rd] Hj Hf; [lia|].
  destruct (Nat.ltb_spec i (length (row_ind self))) as [Hi|Hi].
  - destruct (Nat.eqb_spec j (length (data other))) as [Ej|Ej].
    + cbn [_op_while].
      destruct (Nat.ltb_spec i (length (row_ind self))); [|lia].
      destruct (Nat.eqb_spec j (length (data other))); [|lia].
      cbn [negb]. destruct (negb (is_mul act)); eexists; reflexivity.
    + rewrite (_op_while_step dt self other act fuel i j rr rc rd Hs Ho Hi) by lia.
      cbv zeta.
      repeat match goal with
             | |- context [if ?b then _ else _] => destruct b
             | |- context [match act with _ => _ end] => destruct act
             end; apply IH; lia.
  - cbn [_op_while].
    destruct (Nat.ltb_spec i (length (row_ind self))); [lia|].
    eexists; reflexivity.
Qed.

Lemma _op_total (dt : dtype) (self other : CSRMatrix Z) (act : action) :
  parallel self -> parallel other -> exists t, _op dt self other act = Ok t.
Proof.
  intros Hs Ho. unfold _op.
  destruct (_op_while_total dt self other act Hs Ho (_op_fuel self other) 0 0
              ([], [], [])) as [jr Hjr]; [lia | unfold _op_fuel; lia |].
  rewrite Hjr. eexists. reflexivity.
Qed.

Lemma py_idx_not_fuel {A : Type} (l : list A) (i : nat) : py_idx l i <> OutOfFuel.
Proof. unfold py_idx. destruct (nth_error l i); discriminate. Qed.

Ltac op_case :=
  match goal with
  | |- context [bind (py_idx ?l ?k) _] =>
      let E := fresh "E" in
      destruct (py_idx l k) eqn:E; cbn [bind];
      [ | discriminate | exfalso; exact (py_idx_not_fuel _ _ E) ]
  | |- context [if (?a >? ?b) then _ else _] => rewrite (Z.gtb_ltb a b)
  | |- context [if (?a <? ?b) then _ else _] => destruct (Z.ltb_spec a b)
  | |- context [if (?a =? ?b) then _ else _] => destruct (Z.eqb_spec a b)
  | |- context [if negb (is_mul ?a) then _ else _] => destruct a; cbn [is_mul negb]
  | |- context [match ?a with act_add => _ | act_sub => _ | act_mul => _ end] =>
      destruct a
  end.

(** The iteration budget of [_op] is never exhausted, whatever the
    operands (parallel or not): an iteration either leaves the loop,
    raises, or advances a cursor. *)
Lemma _op_while_fuel (dt : dtype) (self other : CSRMatrix Z) (act : action) :
  forall fuel i j res,
    (j <= length (data other))%nat ->
    (length (row_ind self) - i + (length (data other) - j) < fuel)%nat ->
    _op_while dt fuel self other act i j res <> OutOfFuel.
Proof.
  induction fuel as [|fuel IH]; intros i j [[rr rc] rd] Hj Hf; [lia|].
  cbn [_op_while].
  destruct (Nat.ltb_spec i (length (row_ind self))) as [Hi|Hi]; cbn [negb];
    [|discriminate].
  destruct (Nat.eqb_spec j (length (data other))) as [Ej|Ej].
  { destruct (negb (is_mul act)); discriminate. }
  unfold coord_lt, coord_eq, coord_gt.
  repeat (op_case; cbn [bind]); try discriminate; try (apply IH; lia); lia.
Qed.

Lemma _op_not_out_of_fuel (dt : dtype) (self other : CSRMatrix Z) (act : action) :
  _op dt self other act <> OutOfFuel.
Proof.
  unfold _op.
  destruct (_op_while dt (_op_fuel self other) self other act 0 0 ([], [], []))
    as [jr|e|] eqn:E; cbn [bind]; try discriminate.
  exfalso. revert E. apply _op_while_fuel; unfold _op_fuel; lia.
Qed.

(** ** Parallel sequences and the list of triplets *)

Lemma zip3_rows {V : Type} (r c : list Z) (d : list V) :
  length r = length d -> length c = length d ->
  map (fun t => fst (fst t)) (zip3 r c d) = r.
Proof.
  revert c d. induction r as [|x r IH]; intros [|y c] [|z d] Hr Hc;
    try discriminate; [reflexivity|].
  cbn [zip3 map fst snd]. f_equal. apply IH; simpl in *; lia.
Qed.

Lemma zip3_columns {V : Type} (r c : list Z) (d : list V) :
  length r = length d -> length c = length d ->
  map (fun t => snd (fst t)) (zip3 r c d) = c.
Proof.
  revert c d. induction r as [|x r IH]; intros [|y c] [|z d] Hr Hc;
    try discriminate; [reflexivity|].
  cbn [zip3 map fst snd]. f_equal. apply IH; simpl in *; lia.
Qed.

Lemma parallel_fields (m : CSRMatrix Z) :
  parallel m ->
  row_ind m = map (fun t => fst (fst t)) (entries m) /\
  column_ind m = map (fun t => snd (fst t)) (entries m) /\
  data m = map snd (entries m).
Proof.
  intros [Hr Hc]. unfold entries.
  now rewrite zip3_rows, zip3_columns, zip3_data.
Qed.

Lemma of_entries_entries (n : Z) (s : list Z) (e : list (Z * Z * Z)) :
  entries (of_entries n s e) = e /\ parallel (of_entries n s e).
Proof.
  unfold entries, parallel, of_entries. cbn [row_ind column_ind data].
  rewrite zip3_components, !length_map. repeat split.
Qed.

(** ** The merge loop on the lists of triplets *)

Lemma skipn_zip3_cons (r c d : list Z) (i : nat) :
  length r = length d -> length c = length d -> (i < length r)%nat ->
  skipn i (zip3 r c d)
  = (nth i r 0, nth i c 0, nth i d 0) :: skipn (S i) (zip3 r c d).
Proof.
  revert r c d. induction i as [|i IH]; intros [|x r] [|y c] [|z d] Hr Hc Hi;
    simpl in *; try lia; try discriminate.
  - destruct (zip3 r c d); reflexivity.
  - apply IH; lia.
Qed.

Lemma skipn_entries_cons (m : CSRMatrix Z) (i : nat) :
  parallel m -> (i < length (row_ind m))%nat ->
  skipn i (entries m)
  = (nth i (row_ind m) 0, nth i (column_ind m) 0, nth i (data m) 0)
      :: skipn (S i) (entries m).
Proof. intros [Hr Hc] Hi. now apply skipn_zip3_cons. Qed.

Lemma entries_length (m : CSRMatrix Z) :
  parallel m -> length (entries m) = length (data m).
Proof.
  intros Hp. destruct (parallel_fields m Hp) as (_ & _ & Hd).
  apply (f_equal (@length Z)) in Hd. rewrite length_map in Hd. now symmetry.
Qed.

Lemma extend_skipn (m : CSRMatrix Z) (i : nat) (rr rc rd : list Z) :
  parallel m ->
  extend (rr, rc, rd) (skipn i (entries m))
  = (rr ++ skipn i (row_ind m), rc ++ skipn i (column_ind m),
     rd ++ skipn i (data m)).
Proof.
  intros Hp. destruct (parallel_fields m Hp) as (Hr & Hc & Hd).
  cbn [extend]. rewrite <- !skipn_map, <- Hr, <- Hc, <- Hd. reflexivity.
Qed.

Lemma flat_map_only_other_mul (dt : dtype) (l : list (Z * Z * Z)) :
  flat_map (merge_only_other dt act_mul) l = [].
Proof. induction l as [|b l IH]; [reflexivity | exact IH]. Qed.

Lemma flat_map_only_other_add (dt : dtype) (l : list (Z * Z * Z)) :
  flat_map (merge_only_other dt act_add) l = l.
Proof. induction l as [|b l IH]; [reflexivity|]. cbn. now rewrite IH. Qed.

Lemma flat_map_only_other_sub (dt : dtype) (l : list (Z * Z * Z)) :
  flat_map (merge_only_other dt act_sub) l
  = map (fun b => (fst b, norm dt (- snd b))) l.
Proof. induction l as [|b l IH]; [reflexivity|]. cbn. now rewrite IH. Qed.

Lemma _op_drain_entries (dt : dtype) (other : CSRMatrix Z) (act : action)
  (j : nat) (res : triple) :
  parallel other -> (j <= length (data other))%nat ->
  _op_drain dt other act j res
  = extend res (flat_map (merge_only_other dt act) (skipn j (entries other))).
Proof.
  intros Hp Hj. destruct res as [[rr rc] rd]. unfold _op_drain.
  destruct (Nat.ltb_spec j (length (data other))) as [Hlt|Hge].
  - destruct act; cbn [is_mul negb andb].
    + now rewrite flat_map_only_other_add, extend_skipn.
    + rewrite flat_map_only_other_sub.
      destruct (parallel_fields other Hp) as (Hr & Hc & Hd).
      cbn [extend]. rewrite !map_map. cbn [fst snd].
      rewrite <- (map_map snd (fun i => norm dt (- i))), <- !skipn_map,
        <- Hr, <- Hc, <- Hd.
      reflexivity.
    + now rewrite flat_map_only_other_mul, extend_nil.
  - cbn [andb].
    rewrite (skipn_all2 (entries other)) by (rewrite entries_length; [lia | exact Hp]).
    cbn [flat_map]. now rewrite extend_nil.
Qed.

Lemma merge_entries_cons_cons (dt : dtype) (act : action) (a b : Z * Z * Z)
  (la lb : list (Z * Z * Z)) :
  merge_entries dt act (a :: la) (b :: lb)
  = if coord_ltb (fst b) (fst a)
    then merge_only_other dt act b ++ merge_entries dt act (a :: la) lb
    else if key_eqb (fst b) (fst a)
         then merge_both dt act a b ++ merge_entries dt act la lb
         else merge_only_self act a ++ merge_entries dt act la (b :: lb).
Proof. reflexivity. Qed.

Lemma merge_entries_cons_nil (dt : dtype) (act : action) (a : Z * Z * Z)
  (la : list (Z * Z * Z)) :
  merge_entries dt act (a :: la) [] = if is_mul act then [] else a :: la.
Proof. reflexivity. Qed.

Lemma extend_one (rr rc rd : list Z) (c : Z * Z) (v : Z) :
  extend (rr, rc, rd) [(c, v)] = (rr ++ [fst c], rc ++ [snd c], rd ++ [v]).
Proof. reflexivity. Qed.

(** The loop followed by the drain computes the list-level merge of the
    two suffixes the cursors point at. *)
Lemma _op_while_merge (dt : dtype) (self other : CSRMatrix Z) (act : action) :
  parallel self -> parallel other ->
  forall fuel i j res,
    (i <= length (row_ind self))%nat -> (j <= length (data other))%nat ->
    (length (row_ind self) - i + (length (data other) - j) < fuel)%nat ->
    exists jr, _op_while dt fuel self other act i j res = Ok jr /\
      _op_drain dt other act (fst jr) (snd jr)
      = extend res (merge_entries dt act (skipn i (entries self))
                      (skipn j (entries other))).
Proof.
  intros Hs Ho. pose proof Hs as [Hsr Hsc]. pose proof Ho as [Hor Hoc].
  induction fuel as [|fuel IH]; intros i j [[rr rc] rd] Hi Hj Hf; [lia|].
  destruct (Nat.ltb_spec i (length (row_ind self))) as [Hlt|Hge].
  - rewrite (skipn_entries_cons self i Hs Hlt).
    destruct (Nat.eqb_spec j (length (data other))) as [Ej|Ej].
    + cbn [_op_while].
      destruct (Nat.ltb_spec i (length (row_ind self))); [|lia].
      destruct (Nat.eqb_spec j (length (data other))); [|lia].
      cbn [negb]. rewrite <- (skipn_entries_cons self i Hs Hlt).
      rewrite (skipn_all2 (entries other)) by (rewrite entries_length; [lia|exact Ho]).
      rewrite (skipn_entries_cons self i Hs Hlt), merge_entries_cons_nil.
      rewrite <- (skipn_entries_cons self i Hs Hlt).
      destruct act; cbn [is_mul negb]; eexists; (split; [reflexivity|]);
        cbn [fst snd]; unfold _op_drain;
        destruct (Nat.ltb_spec j (length (data other))); try lia; cbn [andb];
        now rewrite ?extend_skipn, ?extend_nil.
    + assert (Hjl : (j < length (data other))%nat) by lia.
      assert (Hjr : (j < length (row_ind other))%nat) by lia.
      rewrite (skipn_entries_cons other j Ho Hjr), merge_entries_cons_cons.
      rewrite (_op_while_step dt self other act fuel i j rr rc rd Hs Ho Hlt Hjl).
      cbv zeta. cbn [fst snd].
      destruct (coord_ltb _ _).
      * rewrite <- (skipn_entries_cons self i Hs Hlt).
        destruct act; cbn [merge_only_other fst snd];
          rewrite extend_app, ?extend_one, ?extend_nil; cbn [fst snd];
          apply IH; lia.
      * destruct (key_eqb _ _).
        -- destruct act; cbn [merge_both fst snd];
             try (destruct (_ =? 0));
             rewrite extend_app, ?extend_one, ?extend_nil; cbn [fst snd];
             apply IH; lia.
        -- rewrite <- (skipn_entries_cons other j Ho Hjr).
           destruct act; cbn [merge_only_self is_mul negb];
             rewrite extend_app, ?extend_one, ?extend_nil; cbn [fst snd];
             apply IH; lia.
  - assert (i = length (row_ind self)) by lia. subst i.
    cbn [_op_while].
    destruct (Nat.ltb_spec (length (row_ind self)) (length (row_ind self))); [lia|].
    cbn [negb]. eexists. split; [reflexivity|]. cbn [fst snd].
    rewrite (skipn_all2 (entries self)) by (rewrite entries_length; [lia|exact Hs]).
    cbn [merge_entries]. now apply _op_drain_entries.
Qed.

(** On parallel operands [_op] returns, as three sequences, the
    list-level merge of the stored triplets. *)
Lemma _op_entries (dt : dtype) (self other : CSRMatrix Z) (act : action) :
  parallel self -> parallel other ->
  _op dt self other act
  = Ok (extend ([], [], [])
          (merge_entries dt act (entries self) (entries other))).
Proof.
  intros Hs Ho. unfold _op.
  destruct (_op_while_merge dt self other act Hs Ho (_op_fuel self other) 0 0
              ([], [], [])) as (jr & Hjr & Hd); try lia.
  { unfold _op_fuel. lia. }
  rewrite Hjr. cbn [bind]. now rewrite Hd.
Qed.

Lemma init_tuple_extend (e : list (Z * Z * Z)) :
  init_tuple (extend ([], [], []) e) = of_entries (Z.of_nat (length e)) [] e.
Proof. cbn [extend app init_tuple]. unfold of_entries. now rewrite length_map. Qed.

(** What the three operators return on parallel operands. *)
Lemma op_result (dt : dtype) (act : action) (A B : CSRMatrix Z) :
  parallel A -> parallel B ->
  (t <- _op dt A B act ;; __init__ (PyTuple3 t))
  = Ok (of_entries
          (Z.of_nat (length (merge_entries dt act (entries A) (entries B)))) []
          (merge_entries dt act (entries A) (entries B))).
Proof.
  intros HA HB. rewrite (_op_entries dt A B act HA HB). cbn [bind __init__].
  now rewrite init_tuple_extend.
Qed.

(** ** Addition and subtraction *)

(** C4 (as the code has it).  [_op] never looks at [shape]: for every
    pair of matrices with parallel sequences, whether their shapes are
    equal or not, [A + B] and [A - B] raise nothing and return a result
    matrix whose stored triplets are the coordinate merge of the
    operands' triplets, with parallel sequences and [nnz] counting the
    stored values. *)
Theorem add_sub_do_not_check_shapes (dt : dtype) (A B : CSRMatrix Z) :
  parallel A -> parallel B ->
  (exists M, __add__ dt A B = Ok M /\
     entries M = merge_entries dt act_add (entries A) (entries B) /\
     parallel M /\ nnz M = Z.of_nat (length (data M))) /\
  (exists M, __sub__ dt A B = Ok M /\
     entries M = merge_entries dt act_sub (entries A) (entries B) /\
     parallel M /\ nnz M = Z.of_nat (length (data M))).
Proof.
  intros HA HB. unfold __add__, __sub__.
  rewrite (op_result dt act_add A B HA HB), (op_result dt act_sub A B HA HB).
  split; eexists; (split; [reflexivity|]);
    (split; [apply of_entries_entries|]);
    (split; [apply of_entries_entries|]);
    unfold nnz, of_entries; cbn [_nnz data]; now rewrite length_map.
Qed.

Lemma add_sub_do_not_check_shapes_witness :
  shape (init_ndarray dense_one) <> shape (init_ndarray dense_row10) /\
  (exists M, __add__ np_int64 (init_ndarray dense_one) (init_ndarray dense_row10)
             = Ok M /\
             entries M = [(0, 0, 2)] /\
             parallel M /\ nnz M = Z.of_nat (length (data M))) /\
  (exists M, __sub__ np_int64 (init_ndarray dense_1002) (init_ndarray dense_row10)
             = Ok M /\
             entries M = [(1, 1, 2)] /\
             parallel M /\ nnz M = Z.of_nat (length (data M))).
Proof.
  split; [discriminate|]. split.
  - destruct (add_sub_do_not_check_shapes np_int64
                (init_ndarray dense_one) (init_ndarray dense_row10))
      as [(M & HM & He & Hp & Hn) _]; try (split; reflexivity).
    exists M. split; [exact HM|]. split; [now rewrite He|].
    split; [exact Hp | exact Hn].
  - destruct (add_sub_do_not_check_shapes np_int64
                (init_ndarray dense_1002) (init_ndarray dense_row10))
      as [_ (M & HM & He & Hp & Hn)]; try (split; reflexivity).
    exists M. split; [exact HM|]. split; [now rewrite He|].
    split; [exact Hp | exact Hn].
Defined.

(** C4, the claim as written fails: a 1x1 and a 1x2 matrix are added and
    subtracted without any error. *)
Lemma add_sub_accept_mismatched_shapes :
  shape (init_ndarray dense_one) = [1; 1] /\
  shape (init_ndarray dense_row10) = [1; 2] /\
  __add__ np_int64 (init_ndarray dense_one) (init_ndarray dense_row10)
    = Ok (mk_CSRMatrix 1 [] [0] [0] [2]) /\
  __sub__ np_int64 (init_ndarray dense_one) (init_ndarray dense_row10)
    = Ok (mk_CSRMatrix 0 [] [] [] []).
Proof. repeat split. Qed.

Lemma _op_while_diagonal (dt : dtype) (A : CSRMatrix Z) :
  parallel A ->
  forall fuel i,
    (length (row_ind A) - i < fuel)%nat ->
    (i <= length (row_ind A))%nat ->
    _op_while dt fuel A A act_sub i i ([], [], [])
      = Ok (length (row_ind A), ([], [], [])).
Proof.
  intros HA. induction fuel as [|fuel IH]; intros i Hf Hi; [lia|].
  destruct (Nat.eq_dec i (length (row_ind A))) as [E|E].
  - cbn [_op_while].
    destruct (Nat.ltb_spec i (length (row_ind A))); [lia|].
    cbn [negb]. now rewrite E.
  - destruct HA as [Hr Hc].
    rewrite (_op_while_step dt A A act_sub fuel i i [] [] []
               (conj Hr Hc) (conj Hr Hc)) by lia.
    cbv zeta. unfold coord_ltb, key_eqb. cbn [fst snd].
    rewrite !Z.ltb_irrefl, !Z.eqb_refl, Z.sub_diag, norm_0. cbn [orb andb Z.eqb].
    apply IH; lia.
Qed.

(** C7 (as the code has it).  For every matrix with parallel sequences
    whose values are integers of one element type (Python int or numpy
    int64), [A - A] succeeds and stores no triplet ([nnz] is 0); its
    shape is the empty [[]] of every tuple-built matrix, not a copy of
    [A]'s shape. *)
Theorem sub_self_is_empty_with_empty_shape (dt : dtype) (A : CSRMatrix Z) :
  parallel A ->
  exists M, __sub__ dt A A = Ok M /\
    nnz M = 0 /\ row_ind M = [] /\ column_ind M = [] /\ data M = [] /\
    shape M = [].
Proof.
  intros HA. unfold __sub__, _op.
  rewrite (_op_while_diagonal dt A HA) by (unfold _op_fuel; lia).
  cbn [bind fst snd _op_drain].
  destruct HA as [Hr _]. rewrite Hr.
  rewrite Nat.ltb_irrefl. cbn [andb __init__ init_tuple].
  eexists. split; [reflexivity|]. repeat split.
Qed.

Lemma sub_self_is_empty_with_empty_shape_witness :
  exists M, __sub__ np_int64 (init_ndarray dense_1002) (init_ndarray dense_1002)
            = Ok M /\
    nnz M = 0 /\ row_ind M = [] /\ column_ind M = [] /\ data M = [] /\
    shape M = [].
Proof.
  apply (sub_self_is_empty_with_empty_shape np_int64 (init_ndarray dense_1002)).
  split; reflexivity.
Defined.

(** C7, the claim as written fails: for a 2x2 matrix built from a dense
    array, [A - A] does not have [A]'s shape. *)
Lemma sub_self_loses_shape :
  exists M, __sub__ np_int64 (init_ndarray dense_1002) (init_ndarray dense_1002)
            = Ok M /\
    shape (init_ndarray dense_1002) = [2; 2] /\
    shape M <> shape (init_ndarray dense_1002).
Proof.
  eexists. split; [reflexivity|]. split; [reflexivity | discriminate].
Qed.

(** ** Matrix product *)

Lemma key_eqb_eq (a b : Z * Z) : key_eqb a b = true <-> a = b.
Proof.
  unfold key_eqb. destruct a as [a1 a2], b as [b1 b2]. cbn [fst snd].
  rewrite andb_true_iff, !Z.eqb_eq. split.
  - intros [-> ->]. reflexivity.
  - intros H. inversion H. split; reflexivity.
Qed.

Lemma key_eqb_refl (a : Z * Z) : key_eqb a a = true.
Proof. now apply key_eqb_eq. Qed.

Lemma existsb_key_In (k : Z * Z) (l : list (Z * Z)) :
  existsb (key_eqb k) l = true <-> In k l.
Proof.
  rewrite existsb_exists. split.
  - intros (x & Hx & E). apply key_eqb_eq in E. now subst.
  - intros H. exists k. split; [exact H | apply key_eqb_refl].
Qed.

Lemma fold_left_pairs {A B S : Type} (f : A -> S -> B -> S)
  (la : list A) (lb : list B) (init : S) :
  fold_left (fun s a => fold_left (f a) lb s) la init
  = fold_left (fun s p => f (fst p) s (snd p)) (list_prod la lb) init.
Proof.
  revert init. induction la as [|a la IH]; intros init; [reflexivity|].
  cbn [fold_left list_prod]. rewrite fold_left_app, IH. f_equal.
  clear IH. revert init. induction lb as [|b lb IHb]; intros init; [reflexivity|].
  cbn [map fold_left fst snd]. apply IHb.
Qed.

Lemma matmul_accumulate_pairs (dt : dtype) (A B : CSRMatrix Z) :
  matmul_accumulate dt A B
  = fold_left (matmul_step dt) (list_prod (entries A) (entries B)) [].
Proof. unfold matmul_accumulate. apply (fold_left_pairs (matmul_inner dt)). Qed.

Lemma dict_accum_keys (dt : dtype) (k : Z * Z) (v : Z) (res : dict) :
  map fst (dict_accum dt k v res)
  = if existsb (key_eqb k) (map fst res) then map fst res
    else map fst res ++ [k].
Proof.
  induction res as [|[k' v'] res IH]; [reflexivity|].
  cbn [dict_accum map fst existsb].
  destruct (key_eqb k k'); cbn [orb map fst]; [reflexivity|].
  rewrite IH. now destruct (existsb (key_eqb k) (map fst res)).
Qed.

Lemma dict_accum_val (dt : dtype) (k k0 : Z * Z) (v : Z) (res : dict) :
  of_dtype dt v ->
  dict_val k0 (dict_accum dt k v res)
  = if key_eqb k k0 then norm dt (dict_val k0 res + v) else dict_val k0 res.
Proof.
  intros Hv. induction res as [|[k' v'] res IH]; cbn [dict_accum dict_val].
  - destruct (key_eqb k0 k) eqn:E.
    + apply key_eqb_eq in E. subst. rewrite key_eqb_refl.
      cbn [Z.add]. now rewrite Hv.
    + destruct (key_eqb k k0) eqn:E'; [|reflexivity].
      apply key_eqb_eq in E'. subst. rewrite key_eqb_refl in E. discriminate.
  - destruct (key_eqb k k') eqn:Ek; cbn [dict_val].
    + apply key_eqb_eq in Ek. subst k'.
      destruct (key_eqb k0 k) eqn:E.
      * apply key_eqb_eq in E. subst. now rewrite key_eqb_refl.
      * destruct (key_eqb k k0) eqn:E'; [|reflexivity].
        apply key_eqb_eq in E'. subst. rewrite key_eqb_refl in E. discriminate.
    + destruct (key_eqb k0 k') eqn:E; [|exact IH].
      apply key_eqb_eq in E. subst k'.
      destruct (key_eqb k k0) eqn:E'; [discriminate | reflexivity].
Qed.

Lemma matmul_step_keys (dt : dtype) (res : dict)
  (p : (Z * Z * Z) * (Z * Z * Z)) :
  map fst (matmul_step dt res p)
  = map fst res ++ first_occurrences (map fst res) (pair_keys p).
Proof.
  destruct p as [[[r1 c1] d1] [[r2 c2] d2]].
  unfold matmul_step, matmul_inner, pair_keys. cbn [fst snd].
  destruct (c1 =? r2); cbn [negb first_occurrences].
  - rewrite dict_accum_keys.
    destruct (existsb (key_eqb (r1, c2)) (map fst res));
      cbn [first_occurrences]; now rewrite ?app_nil_r.
  - now rewrite app_nil_r.
Qed.

Lemma first_occurrences_app (seen l1 l2 : list (Z * Z)) :
  first_occurrences seen (l1 ++ l2)
  = first_occurrences seen l1
    ++ first_occurrences (seen ++ first_occurrences seen l1) l2.
Proof.
  revert seen. induction l1 as [|k l1 IH]; intros seen; cbn [app first_occurrences].
  - now rewrite app_nil_r.
  - destruct (existsb (key_eqb k) seen); [apply IH|].
    cbn [app]. rewrite IH. now rewrite <- app_assoc.
Qed.

Lemma fold_matmul_step_keys (dt : dtype)
  (l : list ((Z * Z * Z) * (Z * Z * Z))) (res : dict) :
  map fst (fold_left (matmul_step dt) l res)
  = map fst res ++ first_occurrences (map fst res) (flat_map pair_keys l).
Proof.
  revert res. induction l as [|p l IH]; intros res; cbn [fold_left flat_map].
  - cbn [first_occurrences]. now rewrite app_nil_r.
  - rewrite IH, matmul_step_keys, first_occurrences_app. now rewrite <- app_assoc.
Qed.

Lemma matmul_step_val (dt : dtype) (k : Z * Z) (res : dict)
  (p : (Z * Z * Z) * (Z * Z * Z)) :
  of_dtype dt (dict_val k res) ->
  dict_val k (matmul_step dt res p) = norm dt (dict_val k res + contribution k p).
Proof.
  intros Hk. destruct p as [[[r1 c1] d1] [[r2 c2] d2]].
  unfold matmul_step, matmul_inner, contribution. cbn [fst snd].
  destruct (c1 =? r2); cbn [negb andb].
  - rewrite dict_accum_val by apply of_dtype_norm.
    destruct (key_eqb (r1, c2) k).
    + apply norm_add_r.
    + rewrite Z.add_0_r. symmetry. exact Hk.
  - rewrite Z.add_0_r. symmetry. exact Hk.
Qed.

Lemma fold_matmul_step_val (dt : dtype) (k : Z * Z)
  (l : list ((Z * Z * Z) * (Z * Z * Z))) (res : dict) :
  of_dtype dt (dict_val k res) ->
  dict_val k (fold_left (matmul_step dt) l res)
  = norm dt (dict_val k res + fold_right Z.add 0 (map (contribution k) l)).
Proof.
  revert res. induction l as [|p l IH]; intros res Hk;
    cbn [fold_left map fold_right].
  - rewrite Z.add_0_r. symmetry. exact Hk.
  - rewrite IH, matmul_step_val by
      (try rewrite matmul_step_val by exact Hk; try apply of_dtype_norm; exact Hk).
    rewrite norm_add_l. f_equal. lia.
Qed.

Lemma first_occurrences_fresh (seen l : list (Z * Z)) :
  NoDup seen -> NoDup (seen ++ first_occurrences seen l).
Proof.
  revert seen. induction l as [|k l IH]; intros seen Hs; cbn [first_occurrences].
  - now rewrite app_nil_r.
  - destruct (existsb (key_eqb k) seen) eqn:E; [now apply IH|].
    replace (seen ++ k :: first_occurrences (seen ++ [k]) l)
      with ((seen ++ [k]) ++ first_occurrences (seen ++ [k]) l)
      by now rewrite <- app_assoc.
    apply IH. apply NoDup_app; [exact Hs | repeat constructor; intros [] | ].
    intros x Hx [<-|[]].
    apply existsb_key_In in Hx. congruence.
Qed.

Lemma matmul_accumulate_keys (dt : dtype) (A B : CSRMatrix Z) :
  map fst (matmul_accumulate dt A B) = first_occurrences [] (product_keys A B).
Proof. rewrite matmul_accumulate_pairs. apply (fold_matmul_step_keys dt _ []). Qed.

(** The accumulator holds, under each key, the sum of the products
    landing on it, reduced to the element type. *)
Lemma matmul_accumulate_val (dt : dtype) (A B : CSRMatrix Z) (k : Z * Z) :
  dict_val k (matmul_accumulate dt A B) = norm dt (matmul_sum A B k).
Proof.
  rewrite matmul_accumulate_pairs.
  rewrite (fold_matmul_step_val dt k _ []) by apply of_dtype_0.
  reflexivity.
Qed.

Lemma matmul_accumulate_NoDup (dt : dtype) (A B : CSRMatrix Z) :
  NoDup (map fst (matmul_accumulate dt A B)).
Proof.
  rewrite matmul_accumulate_keys.
  apply (first_occurrences_fresh [] (product_keys A B)). constructor.
Qed.

Lemma matmul_emit_from (res : dict) (a b c : list Z) :
  fold_left (fun (acc : triple) (item : (Z * Z) * Z) =>
    let '(res_row, res_col, res_dat) := acc in
    if snd item =? 0 then acc
    else (res_row ++ [fst (fst item)], res_col ++ [snd (fst item)],
          res_dat ++ [snd item]))
    res (a, b, c)
  = (a ++ map (fun it => fst (fst it)) (filter nonzero_item res),
     b ++ map (fun it => snd (fst it)) (filter nonzero_item res),
     c ++ map snd (filter nonzero_item res)).
Proof.
  revert a b c. induction res as [|[k v] res IH]; intros a b c;
    cbn [fold_left filter map].
  - now rewrite !app_nil_r.
  - replace (nonzero_item (k, v)) with (negb (v =? 0)) by reflexivity.
    cbn [fst snd]. destruct (v =? 0); cbn [negb].
    + apply IH.
    + rewrite IH. cbn [map fst snd]. now rewrite <- !app_assoc.
Qed.

Lemma matmul_emit_filter (res : dict) :
  matmul_emit res
  = (map (fun it => fst (fst it)) (filter nonzero_item res),
     map (fun it => snd (fst it)) (filter nonzero_item res),
     map snd (filter nonzero_item res)).
Proof. unfold matmul_emit. now rewrite matmul_emit_from. Qed.

Lemma dict_val_In (res : dict) (k : Z * Z) (v : Z) :
  NoDup (map fst res) -> In (k, v) res -> dict_val k res = v.
Proof.
  induction res as [|[k' v'] res IH]; intros Hnd Hin; [destruct Hin|].
  cbn [map fst] in Hnd. inversion Hnd as [|? ? Hk' Hnd']; subst.
  cbn [dict_val]. destruct Hin as [E|Hin].
  - inversion E; subst. now rewrite key_eqb_refl.
  - destruct (key_eqb k k') eqn:E; [|now apply IH].
    apply key_eqb_eq in E. subst k'. exfalso. apply Hk'.
    apply (in_map fst) in Hin. exact Hin.
Qed.

Lemma dict_val_nonzero_In (res : dict) (k : Z * Z) :
  dict_val k res <> 0 -> In (k, dict_val k res) res.
Proof.
  induction res as [|[k' v'] res IH]; cbn [dict_val]; intros H; [congruence|].
  destruct (key_eqb k k') eqn:E.
  - apply key_eqb_eq in E. subst. now left.
  - right. now apply IH.
Qed.

Lemma map_fst_filter {K V : Type} (p : K -> bool) (l : list (K * V)) :
  map fst (filter (fun it => p (fst it)) l) = filter p (map fst l).
Proof.
  induction l as [|[k v] l IH]; [reflexivity|].
  cbn [filter map fst]. destruct (p k); cbn [map fst]; now rewrite IH.
Qed.

(** What [__matmul__] stores, in terms of the accumulator. *)
Lemma matmul_entries (dt : dtype) (A B M : CSRMatrix Z) :
  __init__ (PyTuple3 (matmul_emit (matmul_accumulate dt A B))) = Ok M ->
  entries M = filter nonzero_item (matmul_accumulate dt A B) /\
  parallel M /\ nnz M = Z.of_nat (length (data M)).
Proof.
  rewrite matmul_emit_filter. cbn [__init__ init_tuple].
  intros H. inversion H; subst. clear H.
  unfold entries, parallel, nnz. cbn [row_ind column_ind data _nnz].
  rewrite zip3_components, !length_map. repeat split.
Qed.

(** C5 (as the code has it).  For operands whose values are integers of
    one element type (Python int or numpy int64): when the last
    component of [A]'s shape equals the first component of [B]'s shape,
    [A @ B] succeeds and stores, once each, exactly the coordinate pairs
    whose accumulated sum of products, taken in the element type, is
    non-zero, with that sum as value; the triplets come out in the order
    in which their pairs were first reached by the nested scan (the
    dict's insertion order), with no sorting.  In every other case
    (unequal components, or an empty shape on either side) [A @ B]
    raises. *)
Theorem matmul_sums_in_first_reached_order (dt : dtype) (A B : CSRMatrix Z) :
  (forall n, py_last (shape A) = Ok n -> py_idx (shape B) 0 = Ok n ->
     exists M, __matmul__ dt A B = Ok M /\
       coords M = filter (fun k => negb (norm dt (matmul_sum A B k) =? 0))
                    (first_occurrences [] (product_keys A B)) /\
       data M = map (fun k => norm dt (matmul_sum A B k)) (coords M) /\
       parallel M /\ nnz M = Z.of_nat (length (data M)) /\
       NoDup (coords M) /\
       (forall r c v, In (r, c, v) (entries M) <->
                      v = norm dt (matmul_sum A B (r, c)) /\ v <> 0)) /\
  ((forall n, ~ (py_last (shape A) = Ok n /\ py_idx (shape B) 0 = Ok n)) ->
   exists e, __matmul__ dt A B = Raise e).
Proof.
  split.
  - intros n Ha Hb. unfold __matmul__. rewrite Ha, Hb. cbn [bind].
    rewrite Z.eqb_refl. cbn [negb].
    destruct (__init__ (PyTuple3 (matmul_emit (matmul_accumulate dt A B))))
      as [M| |] eqn:HM; try discriminate HM.
    exists M. split; [reflexivity|].
    destruct (matmul_entries dt A B M HM) as (Hent & Hpar & Hnnz).
    pose proof (matmul_accumulate_NoDup dt A B) as Hnd.
    set (res := matmul_accumulate dt A B) in *.
    assert (Hflt : filter nonzero_item res
                   = filter (fun it => negb (norm dt (matmul_sum A B (fst it)) =? 0))
                       res).
    { apply filter_ext_in. intros [k v] Hin. unfold nonzero_item. cbn [fst snd].
      rewrite <- (matmul_accumulate_val dt A B k). fold res.
      now rewrite (dict_val_In res k v Hnd Hin). }
    assert (Hco : coords M
                  = filter (fun k => negb (norm dt (matmul_sum A B k) =? 0))
                      (first_occurrences [] (product_keys A B))).
    { unfold coords. rewrite Hent, Hflt.
      change (map coord) with (map (@fst (Z * Z) Z)).
      rewrite (map_fst_filter
                 (fun k => negb (norm dt (matmul_sum A B k) =? 0)) res).
      unfold res. now rewrite matmul_accumulate_keys. }
    assert (Hin : forall k v, In (k, v) (entries M) <->
                              v = norm dt (matmul_sum A B k) /\ v <> 0).
    { intros k v. rewrite Hent, filter_In. unfold nonzero_item. cbn [snd].
      rewrite negb_true_iff, Z.eqb_neq. split.
      - intros [Hi Hv]. split; [|exact Hv].
        rewrite <- (matmul_accumulate_val dt A B k). fold res.
        symmetry. now apply dict_val_In.
      - intros [-> Hv]. split; [|exact Hv].
        rewrite <- (matmul_accumulate_val dt A B k) in *. fold res in Hv |- *.
        now apply dict_val_nonzero_In. }
    split; [exact Hco|]. split; [|split; [exact Hpar|split; [exact Hnnz|split]]].
    + assert (Hd : data M = map snd (entries M)).
      { destruct Hpar as [Hr Hc]. unfold entries. now rewrite zip3_data. }
      unfold coords. rewrite Hd, map_map. apply map_ext_in. intros [k v] Hkv.
      apply Hin in Hkv. now destruct Hkv.
    + rewrite Hco. apply NoDup_filter.
      unfold res in Hnd. now rewrite matmul_accumulate_keys in Hnd.
    + intros r c v. apply (Hin (r, c) v).
  - intros Hno. unfold __matmul__.
    destruct (py_last (shape A)) as [a|e|] eqn:Ha; cbn [bind].
    + destruct (py_idx (shape B) 0) as [b|e|] eqn:Hb; cbn [bind].
      * destruct (Z.eqb_spec a b) as [E|E]; cbn [negb].
        -- subst b. exfalso. apply (Hno a). now split.
        -- now exists ValueError.
      * now exists e.
      * unfold py_idx in Hb. destruct (nth_error (shape B) 0); discriminate.
    + now exists e.
    + unfold py_last in Ha. destruct (rev (shape A)); discriminate.
Qed.

Lemma matmul_sums_in_first_reached_order_witness :
  (exists M, __matmul__ np_int64 (init_ndarray dense_1002) (init_ndarray dense_0340)
             = Ok M /\
     coords M = [(0, 1); (1, 0)] /\ data M = [3; 8]) /\
  (exists e, __matmul__ np_int64 (init_ndarray dense_one) (init_ndarray dense_1002)
             = Raise e).
Proof.
  split.
  - destruct (matmul_sums_in_first_reached_order np_int64
                (init_ndarray dense_1002) (init_ndarray dense_0340)) as [Hok _].
    destruct (Hok 2 eq_refl eq_refl) as (M & HM & Hco & Hd & _).
    exists M. split; [exact HM|]. split.
    + rewrite Hco. vm_compute. reflexivity.
    + rewrite Hd, Hco. vm_compute. reflexivity.
  - destruct (matmul_sums_in_first_reached_order np_int64
                (init_ndarray dense_one) (init_ndarray dense_1002)) as [_ Herr].
    apply Herr. intros n [H1 H2]. vm_compute in H1, H2. congruence.
Defined.

(** C5, the claim as written fails: both operands are sorted row-major
    and their shapes agree (1x2 times 2x2), yet the product's triplets
    come out as (0,1) before (0,0). *)
Lemma matmul_result_not_sorted :
  py_last (shape (init_ndarray dense_row11)) = Ok 2 /\
  py_idx (shape (init_ndarray dense_0110)) 0 = Ok 2 /\
  strictly_sorted (coords (init_ndarray dense_row11)) = true /\
  strictly_sorted (coords (init_ndarray dense_0110)) = true /\
  exists M, __matmul__ np_int64 (init_ndarray dense_row11) (init_ndarray dense_0110)
            = Ok M /\
    coords M = [(0, 1); (0, 0)] /\
    strictly_sorted (coords M) = false.
Proof.
  repeat split. eexists. split; [reflexivity|]. split; reflexivity.
Qed.

(** ** Element assignment *)

(** On a non-empty matrix whose first stored coordinate is smaller than
    the key, the scan stops at once and inserts the key in front. *)
Lemma setitem_inserts_in_front (self : CSRMatrix Z) (key : Z * Z) (value : Z)
  (i j d : Z) (rs cs ds : list Z) :
  row_ind self = i :: rs -> column_ind self = j :: cs -> data self = d :: ds ->
  coord_ltb (i, j) key = true ->
  __setitem__ self key value
  = Ok (mk_CSRMatrix (_nnz self + 1) (shape self)
          (fst key :: i :: rs) (snd key :: j :: cs) (value :: d :: ds)).
Proof.
  intros Hr Hc Hd Hlt. unfold __setitem__. rewrite Hr, Hc, Hd.
  cbn [length Nat.add seq zip3 setitem_loop].
  unfold coord_ltb in Hlt. cbn [fst snd] in Hlt.
  rewrite !Z.gtb_ltb.
  destruct (Z.eqb_spec (fst key) i) as [E|E].
  - subst i. rewrite Z.ltb_irrefl in Hlt |- *. rewrite Z.eqb_refl in Hlt.
    cbn [orb andb] in Hlt |- *.
    destruct (Z.eqb_spec (snd key) j) as [E|_]; [lia|].
    rewrite Hlt. rewrite Hr, Hc, Hd. reflexivity.
  - cbn [andb orb].
    destruct (Z.ltb_spec i (fst key)) as [_|Hge].
    + rewrite Hr, Hc, Hd. reflexivity.
    + destruct (Z.eqb_spec i (fst key)); [congruence | discriminate].
Qed.

Lemma setitem_loop_falls_through (self : CSRMatrix Z) (key : Z * Z) (value : Z)
  (it : list (Z * Z * nat)) :
  (forall i j k, In (i, j, k) it -> coord_ltb key (i, j) = true) ->
  setitem_loop self key value it
  = Ok (mk_CSRMatrix (_nnz self) (shape self)
          (row_ind self ++ [fst key]) (column_ind self ++ [snd key])
          (data self ++ [value])).
Proof.
  induction it as [|[[i j] k] it IH]; intros Hall; [reflexivity|].
  cbn [setitem_loop].
  assert (Hlt := Hall i j k (or_introl eq_refl)).
  unfold coord_ltb in Hlt. cbn [fst snd] in Hlt. rewrite !Z.gtb_ltb.
  apply orb_true_iff in Hlt.
  destruct (Z.eqb_spec (fst key) i) as [E|E];
    destruct (Z.eqb_spec (snd key) j) as [E'|E'];
    destruct (Z.ltb_spec j (snd key)); destruct (Z.ltb_spec i (fst key));
    cbn [andb orb];
    try (apply IH; intros i' j' k' Hin; apply (Hall i' j' k'); now right);
    exfalso; destruct Hlt as [Hl|Hl];
    rewrite ?andb_true_iff, ?Z.ltb_lt, ?Z.eqb_eq in Hl; lia.
Qed.

Lemma zip3_In_combine {C : Type} (r c : list Z) (ks : list C) (i j : Z) (k : C) :
  In (i, j, k) (zip3 r c ks) -> In (i, j) (combine r c).
Proof.
  revert c ks. induction r as [|x r IH]; intros [|y c] [|z ks] H;
    cbn [zip3 combine In] in *; try contradiction.
  destruct H as [E|H'].
  - inversion E. now left.
  - right. now apply (IH c ks).
Qed.

(** When every stored coordinate is greater than the key (in particular
    on a matrix that stores nothing) the loop falls through: the triplet
    is appended, zero or not, and [_nnz] keeps its old value. *)
Lemma setitem_appends_without_counting (self : CSRMatrix Z) (key : Z * Z)
  (value : Z) :
  (forall rc, In rc (combine (row_ind self) (column_ind self)) ->
              coord_ltb key rc = true) ->
  __setitem__ self key value
  = Ok (mk_CSRMatrix (_nnz self) (shape self)
          (row_ind self ++ [fst key]) (column_ind self ++ [snd key])
          (data self ++ [value])).
Proof.
  intros Hall. unfold __setitem__. apply setitem_loop_falls_through.
  intros i j k Hin. apply Hall. exact (zip3_In_combine _ _ _ i j k Hin).
Qed.

(** C2.  On the matrix built from [[1, 0], [0, 0]] (sorted, one stored
    triplet) the in-bounds assignment [a[1, 1] = 5] puts (1, 1) in front
    of (0, 0): the scan inserts before the first stored coordinate that
    is smaller than the key.  A second assignment to the same cell then
    stores the pair twice. *)
Theorem setitem_breaks_row_major_order :
  strictly_sorted (coords (init_ndarray dense_1000)) = true /\
  in_bounds dense_1000 (1, 1) /\
  exists a1 a2,
    __setitem__ (init_ndarray dense_1000) (1, 1) 5 = Ok a1 /\
    entries a1 = [(1, 1, 5); (0, 0, 1)] /\
    strictly_sorted (coords a1) = false /\
    __setitem__ (init_ndarray dense_1002) (1, 1) 7 = Ok a2 /\
    entries a2 = [(1, 1, 7); (0, 0, 1); (1, 1, 2)] /\
    strictly_sorted (coords a2) = false.
Proof.
  split; [reflexivity|]. split; [unfold in_bounds; simpl; lia|].
  do 2 eexists. repeat split.
Qed.

(** C3.  On the all-zero 1x1 matrix the assignment [a[0, 0] = 5] falls
    through the loop and appends, without touching [_nnz]: afterwards one
    value is stored and [nnz] is still 0.  On the matrix built from
    [[1, 0], [0, 2]], setting the stored cell (1, 1) to 0 does not remove
    it: [nnz] goes from 2 to 3. *)
Theorem setitem_append_leaves_nnz_stale :
  nnz (init_ndarray dense_zero) = 0 /\
  entries (init_ndarray dense_zero) = [] /\
  nnz (init_ndarray dense_1002) = 2 /\
  __getitem__ (init_ndarray dense_1002) (1, 1) = 2 /\
  exists a1 a2,
    __setitem__ (init_ndarray dense_zero) (0, 0) 5 = Ok a1 /\
    data a1 = [5] /\ nnz a1 = 0 /\
    nnz a1 <> Z.of_nat (length (data a1)) /\
    __setitem__ (init_ndarray dense_1002) (1, 1) 0 = Ok a2 /\
    nnz a2 = 3.
Proof.
  repeat split. do 2 eexists. repeat split. discriminate.
Qed.

(** C6.  On the all-zero 1x1 matrix the assignment [a[0, 0] = 0] to the
    absent cell appends the triplet (0, 0, 0); on the matrix built from
    [[1, 0], [0, 0]] the assignment [a[1, 1] = 0] inserts (1, 1, 0) and
    increments [nnz]. *)
Theorem setitem_zero_on_absent_cell_stores_zero :
  entries (init_ndarray dense_zero) = [] /\
  entries (init_ndarray dense_1000) = [(0, 0, 1)] /\
  nnz (init_ndarray dense_1000) = 1 /\
  exists a1 a2,
    __setitem__ (init_ndarray dense_zero) (0, 0) 0 = Ok a1 /\
    entries a1 = [(0, 0, 0)] /\
    __setitem__ (init_ndarray dense_1000) (1, 1) 0 = Ok a2 /\
    entries a2 = [(1, 1, 0); (0, 0, 1)] /\
    nnz a2 = 2.
Proof.
  repeat split. do 2 eexists. repeat split.
Qed.

(** ** Densification *)

Lemma length_list_set {A : Type} (k : nat) (v : A) (l : list A) :
  (k < length l)%nat -> length (list_set k v l) = length l.
Proof.
  unfold list_set. revert k. induction l as [|a l IH]; intros [|k] H;
    simpl in *; try lia. f_equal. apply IH. lia.
Qed.

Lemma nth_list_set_eq {A : Type} (k : nat) (v d : A) (l : list A) :
  (k < length l)%nat -> nth k (list_set k v l) d = v.
Proof.
  unfold list_set. revert k. induction l as [|a l IH]; intros [|k] H;
    simpl in *; try lia; [reflexivity|]. apply IH. lia.
Qed.

Lemma nth_list_set_neq {A : Type} (k k' : nat) (v d : A) (l : list A) :
  (k < length l)%nat -> k <> k' -> nth k' (list_set k v l) d = nth k' l d.
Proof.
  unfold list_set. revert k k'.
  induction l as [|a l IH]; intros [|k] [|k'] H Hne; simpl in *;
    try lia; try reflexivity.
  apply IH; lia.
Qed.

Lemma Forall_list_set {A : Type} (P : A -> Prop) (k : nat) (v : A) (l : list A) :
  Forall P l -> P v -> Forall P (list_set k v l).
Proof.
  intros Hl Hv. unfold list_set. revert k.
  induction Hl as [|a l Ha Hl IH]; intros [|k]; simpl;
    repeat (constructor; try assumption).
  apply IH.
Qed.

Lemma np_index_of_nat (n i : nat) :
  (i < n)%nat -> np_index n (Z.of_nat i) = Ok i.
Proof.
  intros H. unfold np_index.
  destruct (Z.leb_spec 0 (Z.of_nat i)); [|lia].
  destruct (Z.ltb_spec (Z.of_nat i) (Z.of_nat n)); [|lia].
  cbn [andb]. now rewrite Nat2Z.id.
Qed.

(** One in-range assignment on a well-formed array. *)
Lemma np_setitem_in_range (E : ndarray) (i j : nat) (v : Z) :
  nd_wf E -> (i < nd_shape0 E)%nat -> (j < nd_shape1 E)%nat ->
  exists E', np_setitem E (Z.of_nat i) (Z.of_nat j) v = Ok E' /\
    nd_wf E' /\ nd_shape0 E' = nd_shape0 E /\ nd_shape1 E' = nd_shape1 E /\
    nd_get E' i j = v /\
    (forall i' j', (i', j') <> (i, j) -> nd_get E' i' j' = nd_get E i' j').
Proof.
  intros [Hlen Hrows] Hi Hj. unfold np_setitem.
  rewrite (np_index_of_nat _ _ Hi), (np_index_of_nat _ _ Hj). cbn [bind].
  eexists. split; [reflexivity|].
  assert (Hrow : length (nth i (nd_rows E) []) = nd_shape1 E).
  { rewrite Forall_forall in Hrows. apply Hrows. apply nth_In. lia. }
  unfold nd_wf, nd_get. cbn [nd_shape0 nd_shape1 nd_rows].
  split; [split|].
  - rewrite length_list_set; lia.
  - apply Forall_list_set; [exact Hrows|]. rewrite length_list_set; lia.
  - split; [reflexivity|]. split; [reflexivity|]. split.
    + rewrite nth_list_set_eq by lia. apply nth_list_set_eq. lia.
    + intros i' j' Hne. destruct (Nat.eq_dec i i') as [<-|Hii].
      * rewrite nth_list_set_eq by lia.
        apply nth_list_set_neq; [lia | congruence].
      * now rewrite nth_list_set_neq by lia.
Qed.

Lemma nth_repeat_lt {A : Type} (x d : A) (n i : nat) :
  (i < n)%nat -> nth i (repeat x n) d = x.
Proof.
  revert i. induction n as [|n IH]; intros [|i] H; simpl; try lia; [reflexivity|].
  apply IH. lia.
Qed.

Lemma nd_ext (E D : ndarray) :
  nd_wf E -> nd_wf D ->
  nd_shape0 E = nd_shape0 D -> nd_shape1 E = nd_shape1 D ->
  (forall i j, (i < nd_shape0 D)%nat -> (j < nd_shape1 D)%nat ->
               nd_get E i j = nd_get D i j) ->
  E = D.
Proof.
  destruct E as [r c rows], D as [r' c' rows']. unfold nd_wf, nd_get.
  cbn [nd_shape0 nd_shape1 nd_rows]. intros [Hl Hr] [Hl' Hr'] -> -> Hget.
  f_equal. apply (nth_ext _ _ [] []); [lia|].
  intros i Hi. rewrite Forall_forall in Hr, Hr'.
  assert (Hi' : (i < length rows')%nat) by lia.
  apply (nth_ext _ _ 0 0).
  - rewrite (Hr (nth i rows [])), (Hr' (nth i rows' [])); auto using nth_In.
  - intros j Hj. apply Hget; [lia|].
    rewrite (Hr (nth i rows [])) in Hj; auto using nth_In.
Qed.

Lemma to_dense_fill_cons (E E' : ndarray) (i j d : Z) (l : list (Z * Z * Z)) :
  np_setitem E i j d = Ok E' ->
  to_dense_fill E ((i, j, d) :: l) = to_dense_fill E' l.
Proof. intros H. unfold to_dense_fill. cbn [fold_left bind]. now rewrite H. Qed.

(** Filling a well-formed array with cells of [D] that cover all its
    non-zero cells yields [D] wherever the array was zero before. *)
Lemma to_dense_fill_cells (D : ndarray) (l : list (Z * Z * Z)) :
  forall E,
    nd_wf E -> nd_shape0 E = nd_shape0 D -> nd_shape1 E = nd_shape1 D ->
    Forall (fun t => exists i j, (i < nd_shape0 D)%nat /\ (j < nd_shape1 D)%nat /\
                       t = (Z.of_nat i, Z.of_nat j, nd_get D i j)) l ->
    (forall i j, (i < nd_shape0 D)%nat -> (j < nd_shape1 D)%nat ->
       nd_get E i j = nd_get D i j \/
       (nd_get E i j = 0 /\
        (nd_get D i j <> 0 -> In (Z.of_nat i, Z.of_nat j, nd_get D i j) l))) ->
    exists E', to_dense_fill E l = Ok E' /\ nd_wf E' /\
      nd_shape0 E' = nd_shape0 D /\ nd_shape1 E' = nd_shape1 D /\
      forall i j, (i < nd_shape0 D)%nat -> (j < nd_shape1 D)%nat ->
                  nd_get E' i j = nd_get D i j.
Proof.
  induction l as [|t l IH]; intros E Hwf H0 H1 Hcells Hinv.
  - exists E. repeat split; try assumption; try apply Hwf.
    intros i j Hi Hj. destruct (Hinv i j Hi Hj) as [H|[Hz Hin]]; [exact H|].
    destruct (Z.eq_dec (nd_get D i j) 0) as [E0|E0]; [congruence|].
    destruct (Hin E0).
  - inversion Hcells as [|? ? (i0 & j0 & Hi0 & Hj0 & ->) Hcells']; subst.
    destruct (np_setitem_in_range E i0 j0 (nd_get D i0 j0) Hwf)
      as (E1 & Hset & Hwf1 & Hs0 & Hs1 & Hhit & Hrest); [lia | lia |].
    rewrite (to_dense_fill_cons E E1 _ _ _ l Hset).
    apply IH; try assumption; try lia.
    intros i j Hi Hj.
    destruct (Nat.eq_dec i i0) as [->|Hii]; [destruct (Nat.eq_dec j j0) as [->|Hjj]|].
    + left. exact Hhit.
    + rewrite Hrest by congruence.
      destruct (Hinv i0 j Hi Hj) as [H|[Hz Hin]]; [now left|].
      right. split; [exact Hz|]. intros Hnz.
      destruct (Hin Hnz) as [Heq|Hl]; [|exact Hl].
      inversion Heq. lia.
    + rewrite Hrest by congruence.
      destruct (Hinv i j Hi Hj) as [H|[Hz Hin]]; [now left|].
      right. split; [exact Hz|]. intros Hnz.
      destruct (Hin Hnz) as [Heq|Hl]; [|exact Hl].
      inversion Heq. lia.
Qed.

Lemma py_last_map_snoc {A B : Type} (f : A -> B) (l : list A) (x : A) :
  py_last (map f (l ++ [x])) = Ok (f x).
Proof. unfold py_last. now rewrite map_app, rev_app_distr. Qed.

Lemma dense_cells_last (D : ndarray) (r c : nat) :
  nd_shape0 D = S r -> nd_shape1 D = S c -> nd_get D r c <> 0 ->
  exists l, dense_cells D = l ++ [(Z.of_nat r, Z.of_nat c, nd_get D r c)].
Proof.
  intros Hr Hc Hnz. unfold dense_cells. rewrite Hr, seq_S, flat_map_app.
  cbn [flat_map Nat.add]. unfold dense_row_cells at 2.
  rewrite Hc, seq_S, flat_map_app. cbn [flat_map Nat.add].
  destruct (Z.eqb_spec (nd_get D r c) 0) as [E|_]; [contradiction|].
  rewrite !app_nil_r, app_assoc. eexists. reflexivity.
Qed.

(** When the bottom-right cell of a well-formed dense array is non-zero
    the last stored triplet carries the largest row and column, and the
    round trip through [to_dense] gives the array back. *)
Lemma to_dense_roundtrip_corner (D : ndarray) (r c : nat) :
  nd_wf D -> nd_shape0 D = S r -> nd_shape1 D = S c -> nd_get D r c <> 0 ->
  to_dense (init_ndarray D) = Ok D.
Proof.
  intros Hwf Hr Hc Hnz.
  destruct (dense_cells_last D r c Hr Hc Hnz) as [l Hl].
  destruct (init_ndarray_entries D) as [Hent _].
  assert (Hrow : py_last (row_ind (init_ndarray D)) = Ok (Z.of_nat r)).
  { unfold init_ndarray. rewrite dense_scan_cells. cbn [extend app row_ind].
    rewrite Hl. apply (py_last_map_snoc (fun t => fst (fst t))). }
  assert (Hcol : py_last (column_ind (init_ndarray D)) = Ok (Z.of_nat c)).
  { unfold init_ndarray. rewrite dense_scan_cells. cbn [extend app column_ind].
    rewrite Hl. apply (py_last_map_snoc (fun t => snd (fst t))). }
  unfold to_dense. rewrite Hrow, Hcol. cbn [bind].
  change (zip3 (row_ind (init_ndarray D)) (column_ind (init_ndarray D))
            (data (init_ndarray D))) with (entries (init_ndarray D)).
  rewrite Hent.
  unfold np_zeros.
  destruct (Z.ltb_spec (Z.of_nat r + 1) 0); [lia|].
  destruct (Z.ltb_spec (Z.of_nat c + 1) 0); [lia|].
  cbn [orb bind].
  replace (Z.to_nat (Z.of_nat r + 1)) with (S r) by lia.
  replace (Z.to_nat (Z.of_nat c + 1)) with (S c) by lia.
  set (Z0 := mk_ndarray (S r) (S c) (repeat (repeat 0 (S c)) (S r))).
  assert (Hz : forall i j, (i < S r)%nat -> (j < S c)%nat -> nd_get Z0 i j = 0).
  { intros i j Hi Hj. unfold nd_get, Z0. cbn [nd_rows].
    rewrite (nth_repeat_lt _ _ _ _ Hi). now apply nth_repeat_lt. }
  destruct (to_dense_fill_cells D (dense_cells D) Z0)
    as (E' & Hfill & Hwf' & Hs0 & Hs1 & Hget).
  - split; [apply repeat_length|]. apply Forall_forall.
    intros x Hx. apply repeat_spec in Hx. subst x. apply repeat_length.
  - now rewrite Hr.
  - now rewrite Hc.
  - apply Forall_forall. intros t Ht. apply dense_cells_In in Ht.
    destruct Ht as (i & j & Hi & Hj & _ & ->). now exists i, j.
  - intros i j Hi Hj. right. split; [apply Hz; lia|].
    intros Hn. apply dense_cells_In. now exists i, j.
  - rewrite Hfill. f_equal. now apply nd_ext.
Qed.

Lemma to_dense_fill_shape (l : list (Z * Z * Z)) :
  forall E E', to_dense_fill E l = Ok E' ->
    nd_shape0 E' = nd_shape0 E /\ nd_shape1 E' = nd_shape1 E.
Proof.
  induction l as [|[[i j] d] l IH]; intros E E' H.
  - inversion H. now split.
  - destruct (np_setitem E i j d) as [E1|e|] eqn:Hset.
    + rewrite (to_dense_fill_cons E E1 i j d l Hset) in H.
      destruct (IH E1 E' H) as [H0 H1]. unfold np_setitem in Hset.
      destruct (np_index (nd_shape0 E) i); try discriminate.
      destruct (np_index (nd_shape1 E) j); try discriminate.
      cbn [bind] in Hset. inversion Hset; subst. cbn in H0, H1. now split.
    + exfalso. unfold to_dense_fill in H. cbn [fold_left bind] in H.
      rewrite Hset in H. clear -H. induction l as [|[[i' j'] d'] l IH]; [discriminate|].
      apply IH. exact H.
    + exfalso. unfold to_dense_fill in H. cbn [fold_left bind] in H.
      rewrite Hset in H. clear -H. induction l as [|[[i' j'] d'] l IH]; [discriminate|].
      apply IH. exact H.
Qed.

(** Whatever [to_dense] returns is sized by the last stored triplet;
    [shape] plays no part. *)
Lemma to_dense_shape (self : CSRMatrix Z) (D : ndarray) :
  to_dense self = Ok D ->
  exists r c, py_last (row_ind self) = Ok r /\ py_last (column_ind self) = Ok c /\
    Z.of_nat (nd_shape0 D) = r + 1 /\ Z.of_nat (nd_shape1 D) = c + 1.
Proof.
  unfold to_dense. intros H.
  apply bind_Ok in H. destruct H as (r & Hr & H).
  apply bind_Ok in H. destruct H as (c & Hc & H).
  apply bind_Ok in H. destruct H as (E & HE & H).
  exists r, c. split; [exact Hr|]. split; [exact Hc|].
  apply to_dense_fill_shape in H. destruct H as [-> ->].
  unfold np_zeros in HE.
  destruct (Z.ltb_spec (r + 1) 0); [discriminate|].
  destruct (Z.ltb_spec (c + 1) 0); [discriminate|].
  inversion HE. cbn. lia.
Qed.

(** C1.  [to_dense] sizes its result from the last stored triplet, not
    from [shape]: [[1, 0], [0, 0]] comes back as the 1x1 array [[1]];
    [[0, 1], [1, 0]] (last triplet (1, 0)) makes the fill assign outside
    a 2x1 array, and the all-zero matrix has no last triplet: both
    raise [IndexError]. *)
Theorem to_dense_sized_by_last_triplet :
  nd_wf dense_1000 /\ nd_wf dense_0110 /\ nd_wf dense_zero /\
  shape (init_ndarray dense_1000) = [2; 2] /\
  to_dense (init_ndarray dense_1000) = Ok (mk_ndarray 1 1 [[1]]) /\
  to_dense (init_ndarray dense_1000) <> Ok dense_1000 /\
  to_dense (init_ndarray dense_0110) = Raise IndexError /\
  to_dense (init_ndarray dense_zero) = Raise IndexError.
Proof.
  unfold nd_wf. repeat split; try (repeat constructor); discriminate.
Qed.

(** * Further properties *)

(** ** Element assignment on the list of triplets *)

Lemma py_pop_middle {A : Type} (pre suf : list A) (x : A) :
  py_pop (length pre) (pre ++ x :: suf) = Ok (pre ++ suf).
Proof.
  unfold py_pop. rewrite length_app. cbn [length].
  destruct (Nat.ltb_spec (length pre) (length pre + S (length suf))); [|lia].
  rewrite firstn_app, Nat.sub_diag, firstn_all. cbn [firstn]. rewrite app_nil_r.
  replace (S (length pre)) with (length pre + 1)%nat by lia.
  rewrite skipn_app, skipn_all2 by lia.
  replace (length pre + 1 - length pre)%nat with 1%nat by lia. reflexivity.
Qed.

Lemma py_store_middle {A : Type} (pre suf : list A) (x v : A) :
  py_store (length pre) v (pre ++ x :: suf) = Ok (pre ++ v :: suf).
Proof.
  unfold py_store. rewrite length_app. cbn [length].
  destruct (Nat.ltb_spec (length pre) (length pre + S (length suf))); [|lia].
  rewrite firstn_app, Nat.sub_diag, firstn_all. cbn [firstn]. rewrite app_nil_r.
  replace (S (length pre)) with (length pre + 1)%nat by lia.
  rewrite skipn_app, skipn_all2 by lia.
  replace (length pre + 1 - length pre)%nat with 1%nat by lia. reflexivity.
Qed.

Lemma py_insert_middle {A : Type} (pre suf : list A) (v : A) :
  py_insert (length pre) v (pre ++ suf) = pre ++ v :: suf.
Proof.
  unfold py_insert.
  rewrite firstn_app, Nat.sub_diag, firstn_all. cbn [firstn]. rewrite app_nil_r.
  rewrite skipn_app, skipn_all, Nat.sub_diag. reflexivity.
Qed.

Lemma setitem_guard (key : Z * Z) (i j : Z) :
  ((fst key =? i) && (snd key >? j)) || (fst key >? i) = coord_ltb (i, j) key.
Proof.
  unfold coord_ltb. cbn [fst snd]. rewrite !Z.gtb_ltb, (Z.eqb_sym (fst key) i).
  apply orb_comm.
Qed.

Lemma setitem_loop_entries (self : CSRMatrix Z) (key : Z * Z) (value : Z) :
  forall suf pre,
    row_ind self = map (fun t => fst (fst t)) (pre ++ suf) ->
    column_ind self = map (fun t => snd (fst t)) (pre ++ suf) ->
    data self = map snd (pre ++ suf) ->
    setitem_loop self key value
      (zip3 (map (fun t => fst (fst t)) suf) (map (fun t => snd (fst t)) suf)
            (seq (length pre) (length suf + 1)))
    = Ok (of_entries (set_nnz key value suf (_nnz self)) (shape self)
            (pre ++ set_entries key value suf)).
Proof.
  induction suf as [|[[i j] d] suf IH]; intros pre Hr Hc Hd.
  - cbn [map zip3 setitem_loop set_entries set_nnz]. unfold of_entries.
    rewrite app_nil_r in Hr, Hc, Hd. rewrite Hr, Hc, Hd, !map_app. reflexivity.
  - cbn [map length Nat.add seq zip3 fst snd setitem_loop set_entries set_nnz].
    rewrite setitem_guard.
    change ((fst key =? i) && (snd key =? j)) with (key_eqb key (i, j)).
    destruct (key_eqb key (i, j)) eqn:Ek.
    + destruct (value =? 0).
      * rewrite Hd, Hr, Hc, !map_app. cbn [map fst snd].
        rewrite <- (length_map snd pre) at 1.
        rewrite py_pop_middle. cbn [bind].
        rewrite <- (length_map (fun t => fst (fst t)) pre) at 1.
        rewrite py_pop_middle. cbn [bind].
        rewrite <- (length_map (fun t => snd (fst t)) pre) at 1.
        rewrite py_pop_middle. cbn [bind].
        unfold of_entries. now rewrite !map_app.
      * rewrite Hd, !map_app. cbn [map fst snd].
        rewrite <- (length_map snd pre) at 1.
        rewrite py_store_middle. cbn [bind].
        unfold of_entries. rewrite Hr, Hc, !map_app. reflexivity.
    + destruct (coord_ltb (i, j) key).
      * rewrite Hd at 1. rewrite length_map, length_app. cbn [length].
        destruct (Nat.eqb_spec (length pre) (length pre + S (length suf))); [lia|].
        cbn [negb]. unfold of_entries. rewrite Hr, Hc, Hd, !map_app.
        cbn [map fst snd].
        rewrite <- (length_map (fun t => fst (fst t)) pre) at 1.
        rewrite py_insert_middle.
        rewrite <- (length_map (fun t => snd (fst t)) pre) at 1.
        rewrite py_insert_middle.
        rewrite <- (length_map snd pre) at 1.
        rewrite py_insert_middle. reflexivity.
      * specialize (IH (pre ++ [(i, j, d)])).
        rewrite <- !app_assoc in IH. cbn [app] in IH.
        rewrite length_app in IH. cbn [length] in IH.
        replace (length pre + 1)%nat with (S (length pre)) in IH by lia.
        now apply IH.
Qed.

(** On parallel sequences [__setitem__] always succeeds, and it is the
    list-level [set_entries] with the counter [set_nnz]. *)
Lemma setitem_entries (self : CSRMatrix Z) (key : Z * Z) (value : Z) :
  parallel self ->
  __setitem__ self key value
  = Ok (of_entries (set_nnz key value (entries self) (_nnz self)) (shape self)
          (set_entries key value (entries self))).
Proof.
  intros Hp. destruct (parallel_fields self Hp) as (Hr & Hc & Hd).
  unfold __setitem__.
  rewrite Hr at 1. rewrite Hc at 1. rewrite Hd at 1. rewrite length_map.
  apply (setitem_loop_entries self key value (entries self) []); assumption.
Qed.

Lemma key_eqb_sym (a b : Z * Z) : key_eqb a b = key_eqb b a.
Proof. unfold key_eqb. now rewrite (Z.eqb_sym (fst a)), (Z.eqb_sym (snd a)). Qed.

Lemma getitem_loop_cons (item : Z * Z) (t : Z * Z * Z) (l : list (Z * Z * Z)) :
  getitem_loop item (t :: l)
  = if key_eqb item (fst t) then snd t else getitem_loop item l.
Proof. destruct t as [[i j] d]. reflexivity. Qed.

Lemma getitem_loop_not_stored (item : Z * Z) (l : list (Z * Z * Z)) :
  ~ In item (map fst l) -> getitem_loop item l = 0.
Proof.
  induction l as [|t l IH]; intros H; [reflexivity|].
  rewrite getitem_loop_cons. destruct (key_eqb item (fst t)) eqn:E.
  - apply key_eqb_eq in E. exfalso. apply H. left. now symmetry.
  - apply IH. intros Hin. apply H. now right.
Qed.

Lemma get_set_same (key : Z * Z) (value : Z) (e : list (Z * Z * Z)) :
  value <> 0 \/ NoDup (map fst e) ->
  getitem_loop key (set_entries key value e) = value.
Proof.
  induction e as [|[c d] e IH]; intros H; cbn [set_entries].
  - rewrite getitem_loop_cons. cbn [fst snd]. now rewrite key_eqb_refl.
  - destruct (key_eqb key c) eqn:Ek.
    + apply key_eqb_eq in Ek. subst c.
      destruct (Z.eqb_spec value 0) as [Ev|Ev].
      * subst value. destruct H as [H|H]; [congruence|].
        cbn [map fst] in H. inversion H; subst.
        now apply getitem_loop_not_stored.
      * rewrite getitem_loop_cons. cbn [fst snd]. now rewrite key_eqb_refl.
    + destruct (coord_ltb c key).
      * rewrite getitem_loop_cons. cbn [fst snd]. now rewrite key_eqb_refl.
      * rewrite getitem_loop_cons. cbn [fst snd]. rewrite Ek. apply IH.
        destruct H as [H|H]; [now left | right].
        cbn [map fst] in H. now inversion H.
Qed.

Lemma get_set_other (key key' : Z * Z) (value : Z) (e : list (Z * Z * Z)) :
  key' <> key ->
  getitem_loop key' (set_entries key value e) = getitem_loop key' e.
Proof.
  intros Hne.
  assert (Hk : key_eqb key' key = false).
  { destruct (key_eqb key' key) eqn:E; [|reflexivity].
    apply key_eqb_eq in E. contradiction. }
  induction e as [|[c d] e IH]; cbn [set_entries].
  - rewrite getitem_loop_cons. cbn [fst snd]. now rewrite Hk.
  - destruct (key_eqb key c) eqn:Ek.
    + apply key_eqb_eq in Ek. subst c.
      destruct (value =? 0); rewrite !getitem_loop_cons; cbn [fst snd];
        now rewrite Hk.
    + destruct (coord_ltb c key).
      * rewrite (getitem_loop_cons key' (key, value)). cbn [fst snd]. now rewrite Hk.
      * rewrite !getitem_loop_cons. cbn [fst snd].
        destruct (key_eqb key' c); [reflexivity | exact IH].
Qed.

(** ** Order on coordinates *)

Lemma coord_ltb_lt (a b : Z * Z) : coord_ltb a b = true <-> coord_lt_prop a b.
Proof.
  unfold coord_ltb, coord_lt_prop.
  rewrite orb_true_iff, andb_true_iff, !Z.ltb_lt, Z.eqb_eq. reflexivity.
Qed.

Lemma coord_lt_trans (a b c : Z * Z) :
  coord_lt_prop a b -> coord_lt_prop b c -> coord_lt_prop a c.
Proof. unfold coord_lt_prop. lia. Qed.

Lemma coord_lt_irrefl (a : Z * Z) : ~ coord_lt_prop a a.
Proof. unfold coord_lt_prop. lia. Qed.

Lemma coord_total (a b : Z * Z) :
  coord_ltb b a = false -> key_eqb b a = false -> coord_lt_prop a b.
Proof.
  unfold coord_ltb, key_eqb, coord_lt_prop.
  rewrite orb_false_iff, !andb_false_iff, !Z.ltb_ge, !Z.eqb_neq. lia.
Qed.

Lemma strictly_sorted_strong (l : list (Z * Z)) :
  strictly_sorted l = true <-> StronglySorted coord_lt_prop l.
Proof.
  split; [|apply strictly_sorted_of_StronglySorted].
  induction l as [|a l IH]; intros H; [constructor|].
  cbn [strictly_sorted] in H. destruct l as [|b l]; [repeat constructor|].
  apply andb_true_iff in H. destruct H as [Hab Hl].
  apply coord_ltb_lt in Hab. specialize (IH Hl).
  constructor; [exact IH|]. constructor; [exact Hab|].
  inversion IH as [|? ? _ Hall]; subst.
  eapply Forall_impl; [|exact Hall]. intros c Hc.
  exact (coord_lt_trans a b c Hab Hc).
Qed.

Lemma StronglySorted_unmap {A B : Type} (R : B -> B -> Prop) (f : A -> B)
  (l : list A) :
  StronglySorted R (map f l) -> StronglySorted (fun x y => R (f x) (f y)) l.
Proof.
  induction l as [|a l IH]; intros H; [constructor|].
  cbn [map] in H. inversion H as [|? ? Hs Hall]; subst.
  constructor; [now apply IH|]. apply Forall_forall. intros x Hx.
  rewrite Forall_forall in Hall. apply Hall. now apply in_map.
Qed.

Lemma getitem_loop_above (k : Z * Z) (l : list (Z * Z * Z)) :
  Forall (fun t => coord_lt_prop k (fst t)) l -> getitem_loop k l = 0.
Proof.
  intros H. apply getitem_loop_not_stored. intros Hin.
  apply in_map_iff in Hin. destruct Hin as (t & <- & Ht).
  rewrite Forall_forall in H. exact (coord_lt_irrefl _ (H t Ht)).
Qed.

(** ** The list-level merge: cells, order, zeros *)

Lemma getitem_loop_of_dtype (dt : dtype) (k : Z * Z) (l : list (Z * Z * Z)) :
  Forall (fun t => of_dtype dt (snd t)) l -> of_dtype dt (getitem_loop k l).
Proof.
  induction 1 as [|t l Ht Hl IH]; [apply of_dtype_0|].
  rewrite getitem_loop_cons. now destruct (key_eqb k (fst t)).
Qed.

Lemma values_entries (dt : dtype) (m : CSRMatrix Z) :
  parallel m -> values_of_dtype dt m ->
  Forall (fun t => of_dtype dt (snd t)) (entries m).
Proof.
  intros Hp Hv. destruct (parallel_fields m Hp) as (_ & _ & Hd).
  unfold values_of_dtype in Hv. rewrite Hd in Hv.
  rewrite Forall_forall in *. intros t Ht. apply Hv. now apply in_map.
Qed.

Lemma values_of_entries (dt : dtype) (n : Z) (s : list Z) (e : list (Z * Z * Z)) :
  Forall (fun t => of_dtype dt (snd t)) e -> values_of_dtype dt (of_entries n s e).
Proof.
  intros H. unfold values_of_dtype, of_entries. cbn [data].
  rewrite Forall_forall in *. intros v Hv.
  apply in_map_iff in Hv. destruct Hv as (t & <- & Ht). now apply H.
Qed.

(** Every cell of a matrix of the element type is a value of it. *)
Lemma getitem_of_dtype (dt : dtype) (m : CSRMatrix Z) (k : Z * Z) :
  parallel m -> values_of_dtype dt m -> of_dtype dt (__getitem__ m k).
Proof.
  intros Hp Hv. unfold __getitem__. fold (entries m).
  apply getitem_loop_of_dtype. now apply values_entries.
Qed.

Ltac norm_arith :=
  unfold of_dtype in *;
  rewrite ?Z.add_0_l, ?Z.add_0_r, ?Z.sub_0_l, ?Z.sub_0_r, ?Z.mul_0_l,
    ?Z.mul_0_r, ?norm_0;
  try reflexivity; try congruence.

Lemma merge_get_only_other (dt : dtype) (act : action) (k : Z * Z)
  (lb : list (Z * Z * Z)) :
  Forall (fun t => of_dtype dt (snd t)) lb ->
  getitem_loop k (flat_map (merge_only_other dt act) lb)
  = apply_action dt act 0 (getitem_loop k lb).
Proof.
  induction 1 as [|b lb Hb Hlb IH]; [destruct act; cbn; now rewrite norm_0|].
  rewrite (getitem_loop_cons k b).
  destruct act; cbn [flat_map merge_only_other app apply_action] in *;
    rewrite ?getitem_loop_cons; cbn [fst snd];
    destruct (key_eqb k (fst b)); try exact IH; norm_arith.
Qed.

Lemma merge_get (dt : dtype) (act : action) (k : Z * Z) :
  forall la lb,
    Forall (fun t => of_dtype dt (snd t)) la ->
    Forall (fun t => of_dtype dt (snd t)) lb ->
    StronglySorted (fun x y => coord_lt_prop (fst x) (fst y)) la ->
    StronglySorted (fun x y => coord_lt_prop (fst x) (fst y)) lb ->
    getitem_loop k (merge_entries dt act la lb)
    = apply_action dt act (getitem_loop k la) (getitem_loop k lb).
Proof.
  induction la as [|a la IHa]; intros lb Da Db Sa Sb.
  - cbn [merge_entries]. now apply merge_get_only_other.
  - inversion Sa as [|? ? Sa' Ha]; subst.
    inversion Da as [|? ? Da0 Da']; subst.
    induction lb as [|b lb IHb].
    + rewrite merge_entries_cons_nil.
      pose proof (getitem_loop_of_dtype dt k (a :: la) Da) as Hg.
      remember (getitem_loop k (a :: la)) as ga.
      change (getitem_loop k []) with 0.
      destruct act; cbn [is_mul apply_action]; rewrite <- ?Heqga;
        change (getitem_loop k []) with 0; norm_arith.
    + inversion Sb as [|? ? Sb' Hb]; subst.
      inversion Db as [|? ? Db0 Db']; subst. specialize (IHb Db' Sb').
      rewrite merge_entries_cons_cons.
      destruct (coord_ltb (fst b) (fst a)) eqn:Hlt.
      * apply coord_ltb_lt in Hlt.
        assert (Habove : key_eqb k (fst b) = true -> getitem_loop k (a :: la) = 0).
        { intros E. apply key_eqb_eq in E. subst k. apply getitem_loop_above.
          constructor; [exact Hlt|].
          eapply Forall_impl; [|exact Ha]. intros c Hc.
          exact (coord_lt_trans _ _ _ Hlt Hc). }
        remember (getitem_loop k (a :: la)) as ga.
        remember (merge_entries dt act (a :: la) lb) as rest.
        rewrite (getitem_loop_cons k b).
        destruct act; cbn [merge_only_other app apply_action] in *;
          rewrite ?getitem_loop_cons; cbn [fst snd];
          destruct (key_eqb k (fst b)); rewrite ?IHb; try reflexivity;
          rewrite Habove by reflexivity; norm_arith.
      * destruct (key_eqb (fst b) (fst a)) eqn:Heq.
        -- apply key_eqb_eq in Heq.
           assert (Ha0 : key_eqb k (fst a) = true -> getitem_loop k la = 0).
           { intros E. apply key_eqb_eq in E. subst k. now apply getitem_loop_above. }
           assert (Hb0 : key_eqb k (fst a) = true -> getitem_loop k lb = 0).
           { intros E. apply key_eqb_eq in E. subst k. apply getitem_loop_above.
             now rewrite <- Heq. }
           specialize (IHa lb Da' Db' Sa' Sb').
           remember (merge_entries dt act la lb) as rest.
           rewrite (getitem_loop_cons k a), (getitem_loop_cons k b), Heq.
           destruct act; cbn [merge_both apply_action] in *;
             rewrite ?(Z.add_comm (snd b) (snd a)), ?(Z.mul_comm (snd b) (snd a));
             try (destruct (Z.eqb_spec (norm dt (snd a + snd b)) 0));
             try (destruct (Z.eqb_spec (norm dt (snd a - snd b)) 0)); cbn [app];
             rewrite ?getitem_loop_cons; cbn [fst snd]; rewrite ?Heq;
             destruct (key_eqb k (fst a)); rewrite ?IHa; try reflexivity;
             rewrite ?Ha0, ?Hb0 by reflexivity; norm_arith.
        -- pose proof (coord_total _ _ Hlt Heq) as Hgt.
           assert (Habove : key_eqb k (fst a) = true -> getitem_loop k (b :: lb) = 0).
           { intros E. apply key_eqb_eq in E. subst k. apply getitem_loop_above.
             constructor; [exact Hgt|].
             eapply Forall_impl; [|exact Hb]. intros c Hc.
             exact (coord_lt_trans _ _ _ Hgt Hc). }
           specialize (IHa (b :: lb) Da' Db Sa' Sb).
           remember (getitem_loop k (b :: lb)) as gb.
           remember (merge_entries dt act la (b :: lb)) as rest.
           rewrite (getitem_loop_cons k a).
           destruct act; cbn [merge_only_self is_mul app apply_action] in *;
             rewrite ?getitem_loop_cons; cbn [fst snd];
             destruct (key_eqb k (fst a)); rewrite ?IHa; try reflexivity;
             rewrite Habove by reflexivity; norm_arith.
Qed.

Lemma merge_only_other_In (dt : dtype) (act : action) (t : Z * Z * Z)
  (lb : list (Z * Z * Z)) :
  In t (flat_map (merge_only_other dt act) lb) -> In (fst t) (map fst lb).
Proof.
  intros H. apply in_flat_map in H. destruct H as (b & Hb & Ht).
  apply in_map_iff. exists b. split; [|exact Hb].
  destruct act; cbn [merge_only_other In] in Ht; try contradiction;
    destruct Ht as [<-|[]]; reflexivity.
Qed.

(** Every coordinate the merge emits is a coordinate of an operand. *)
Lemma merge_In_coord (dt : dtype) (act : action) (t : Z * Z * Z) :
  forall la lb, In t (merge_entries dt act la lb) ->
    In (fst t) (map fst la) \/ In (fst t) (map fst lb).
Proof.
  induction la as [|a la IHa]; intros lb H.
  - right. now apply (merge_only_other_In dt act).
  - induction lb as [|b lb IHb].
    + rewrite merge_entries_cons_nil in H. left. apply in_map.
      destruct (is_mul act); [destruct H | exact H].
    + rewrite merge_entries_cons_cons in H.
      destruct (coord_ltb (fst b) (fst a)).
      * apply in_app_or in H. destruct H as [H|H].
        -- right. left.
           destruct act; cbn [merge_only_other In] in H; try contradiction;
             destruct H as [<-|[]]; reflexivity.
        -- destruct (IHb H) as [H'|H']; [now left | right; now right].
      * destruct (key_eqb (fst b) (fst a)).
        -- apply in_app_or in H. destruct H as [H|H].
           ++ right. left.
              destruct act; cbn [merge_both] in H;
                try (destruct (_ =? 0)); cbn [In] in H; try contradiction;
                destruct H as [<-|[]]; reflexivity.
           ++ destruct (IHa lb H) as [H'|H']; [left | right]; now right.
        -- apply in_app_or in H. destruct H as [H|H].
           ++ left. left. unfold merge_only_self in H.
              destruct (is_mul act); cbn [In] in H; try contradiction.
              destruct H as [<-|[]]. reflexivity.
           ++ destruct (IHa (b :: lb) H) as [H'|H']; [left; now right | now right].
Qed.

Lemma merge_above (dt : dtype) (act : action) (k : Z * Z)
  (la lb : list (Z * Z * Z)) :
  Forall (fun t => coord_lt_prop k (fst t)) la ->
  Forall (fun t => coord_lt_prop k (fst t)) lb ->
  Forall (fun t => coord_lt_prop k (fst t)) (merge_entries dt act la lb).
Proof.
  intros Ha Hb. apply Forall_forall. intros t Ht.
  rewrite Forall_forall in Ha, Hb.
  destruct (merge_In_coord dt act t la lb Ht) as [H|H];
    apply in_map_iff in H; destruct H as (x & <- & Hx); auto.
Qed.

Lemma merge_sorted (dt : dtype) (act : action) :
  forall la lb,
    StronglySorted (fun x y => coord_lt_prop (fst x) (fst y)) la ->
    StronglySorted (fun x y => coord_lt_prop (fst x) (fst y)) lb ->
    StronglySorted (fun x y => coord_lt_prop (fst x) (fst y))
      (merge_entries dt act la lb).
Proof.
  induction la as [|a la IHa]; intros lb Sa Sb.
  - cbn [merge_entries]. destruct act.
    + now rewrite flat_map_only_other_add.
    + rewrite flat_map_only_other_sub. clear Sa.
      induction Sb as [|b lb Sb IH Hb]; cbn [map]; constructor; [exact IH|].
      apply Forall_map. exact Hb.
    + rewrite flat_map_only_other_mul. constructor.
  - inversion Sa as [|? ? Sa' Ha]; subst.
    induction lb as [|b lb IHb].
    + rewrite merge_entries_cons_nil. destruct (is_mul act); [constructor | exact Sa].
    + inversion Sb as [|? ? Sb' Hb]; subst. specialize (IHb Sb').
      rewrite merge_entries_cons_cons.
      destruct (coord_ltb (fst b) (fst a)) eqn:Hlt.
      * apply coord_ltb_lt in Hlt.
        assert (Hrest : Forall (fun t => coord_lt_prop (fst b) (fst t))
                          (merge_entries dt act (a :: la) lb)).
        { apply merge_above; [|exact Hb]. constructor; [exact Hlt|].
          eapply Forall_impl; [|exact Ha]. intros c Hc.
          exact (coord_lt_trans _ _ _ Hlt Hc). }
        destruct act; cbn [merge_only_other app];
          try (constructor; [exact IHb | exact Hrest]); exact IHb.
      * destruct (key_eqb (fst b) (fst a)) eqn:Heq.
        -- apply key_eqb_eq in Heq. specialize (IHa lb Sa' Sb').
           assert (Hrest : Forall (fun t => coord_lt_prop (fst b) (fst t))
                             (merge_entries dt act la lb)).
           { apply merge_above; [now rewrite Heq | exact Hb]. }
           destruct act; cbn [merge_both];
             try (destruct (_ =? 0)); cbn [app];
             try (constructor; [exact IHa | exact Hrest]); exact IHa.
        -- pose proof (coord_total _ _ Hlt Heq) as Hgt.
           specialize (IHa (b :: lb) Sa' Sb).
           assert (Hrest : Forall (fun t => coord_lt_prop (fst a) (fst t))
                             (merge_entries dt act la (b :: lb))).
           { apply merge_above; [exact Ha|]. constructor; [exact Hgt|].
             eapply Forall_impl; [|exact Hb]. intros c Hc.
             exact (coord_lt_trans _ _ _ Hgt Hc). }
           unfold merge_only_self. destruct (is_mul act); cbn [app];
             try (constructor; [exact IHa | exact Hrest]); exact IHa.
Qed.

(** The merge stays inside the element type. *)
Lemma merge_of_dtype (dt : dtype) (act : action) :
  forall la lb,
    Forall (fun t => of_dtype dt (snd t)) la ->
    Forall (fun t => of_dtype dt (snd t)) lb ->
    Forall (fun t => of_dtype dt (snd t)) (merge_entries dt act la lb).
Proof.
  induction la as [|a la IHa]; intros lb Ha Hb.
  - cbn [merge_entries]. apply Forall_forall. intros t Ht.
    apply in_flat_map in Ht. destruct Ht as (b & Hin & Ht).
    rewrite Forall_forall in Hb. specialize (Hb b Hin).
    destruct act; cbn [merge_only_other In] in Ht; try contradiction;
      destruct Ht as [<-|[]]; cbn [snd]; [exact Hb | apply of_dtype_norm].
  - inversion Ha as [|? ? Ha0 Ha']; subst.
    induction lb as [|b lb IHb].
    + rewrite merge_entries_cons_nil. destruct (is_mul act); [constructor | exact Ha].
    + inversion Hb as [|? ? Hb0 Hb']; subst. specialize (IHb Hb').
      rewrite merge_entries_cons_cons.
      destruct (coord_ltb (fst b) (fst a)).
      * destruct act; cbn [merge_only_other app];
          try (constructor; [cbn [snd]; first [exact Hb0 | apply of_dtype_norm]
                            | exact IHb]); exact IHb.
      * destruct (key_eqb (fst b) (fst a)).
        -- specialize (IHa lb Ha' Hb').
           destruct act; cbn [merge_both];
             try (destruct (_ =? 0)); cbn [app];
             try exact IHa; constructor; try exact IHa; apply of_dtype_norm.
        -- specialize (IHa (b :: lb) Ha' Hb).
           unfold merge_only_self. destruct (is_mul act); cbn [app];
             [exact IHa | constructor; [exact Ha0 | exact IHa]].
Qed.

(** Sums and differences never leave a zero behind; products of Python
    integers do not either, while two non-zero [int64] values can have
    the product 0. *)
Lemma merge_nonzero (dt : dtype) (act : action) :
  (is_mul act = true -> dt = py_int) ->
  forall la lb,
    Forall (fun t => of_dtype dt (snd t)) lb ->
    Forall (fun t => snd t <> 0) la -> Forall (fun t => snd t <> 0) lb ->
    Forall (fun t => snd t <> 0) (merge_entries dt act la lb).
Proof.
  intros Hmul.
  induction la as [|a la IHa]; intros lb Db Ha Hb.
  - cbn [merge_entries]. apply Forall_forall. intros t Ht.
    apply in_flat_map in Ht. destruct Ht as (b & Hin & Ht).
    rewrite Forall_forall in Hb, Db. specialize (Hb b Hin). specialize (Db b Hin).
    destruct act; cbn [merge_only_other In] in Ht; try contradiction;
      destruct Ht as [<-|[]]; cbn [snd]; [exact Hb | now apply norm_opp_nonzero].
  - inversion Ha as [|? ? Ha0 Ha']; subst.
    induction lb as [|b lb IHb].
    + rewrite merge_entries_cons_nil. destruct (is_mul act); [constructor | exact Ha].
    + inversion Hb as [|? ? Hb0 Hb']; subst.
      inversion Db as [|? ? Db0 Db']; subst. specialize (IHb Db' Hb').
      rewrite merge_entries_cons_cons.
      destruct (coord_ltb (fst b) (fst a)).
      * destruct act; cbn [merge_only_other app];
          try (constructor;
               [cbn [snd]; first [exact Hb0 | now apply norm_opp_nonzero]
               | exact IHb]); exact IHb.
      * destruct (key_eqb (fst b) (fst a)).
        -- specialize (IHa lb Db' Ha' Hb').
           destruct act; cbn [merge_both].
           ++ destruct (Z.eqb_spec (norm dt (snd b + snd a)) 0); cbn [app];
                [exact IHa | constructor; [exact n | exact IHa]].
           ++ destruct (Z.eqb_spec (norm dt (snd a - snd b)) 0); cbn [app];
                [exact IHa | constructor; [exact n | exact IHa]].
           ++ cbn [app]. constructor; [|exact IHa].
              rewrite (Hmul eq_refl). cbn [snd norm]. nia.
        -- specialize (IHa (b :: lb) Db Ha' Hb).
           unfold merge_only_self. destruct (is_mul act); cbn [app];
             [exact IHa | constructor; [exact Ha0 | exact IHa]].
Qed.

(** ** Element-wise operators on sorted operands *)

Lemma getitem_of_entries (n : Z) (s : list Z) (e : list (Z * Z * Z)) (k : Z * Z) :
  __getitem__ (of_entries n s e) k = getitem_loop k e.
Proof.
  unfold __getitem__. fold (entries (of_entries n s e)).
  now rewrite (proj1 (of_entries_entries n s e)).
Qed.

Lemma sorted_entries (m : CSRMatrix Z) :
  strictly_sorted (coords m) = true <->
  StronglySorted (fun x y => coord_lt_prop (fst x) (fst y)) (entries m).
Proof.
  rewrite strictly_sorted_strong. unfold coords. split.
  - apply (StronglySorted_unmap coord_lt_prop (@fst (Z * Z) Z)).
  - apply (StronglySorted_map coord_lt_prop (@fst (Z * Z) Z)).
Qed.

Lemma op_cellwise (dt : dtype) (act : action) (A B : CSRMatrix Z) :
  parallel A -> parallel B ->
  values_of_dtype dt A -> values_of_dtype dt B ->
  strictly_sorted (coords A) = true -> strictly_sorted (coords B) = true ->
  exists M, (t <- _op dt A B act ;; __init__ (PyTuple3 t)) = Ok M /\
    parallel M /\ strictly_sorted (coords M) = true /\
    nnz M = Z.of_nat (length (data M)) /\
    values_of_dtype dt M /\
    (forall k, __getitem__ M k
               = apply_action dt act (__getitem__ A k) (__getitem__ B k)) /\
    ((is_mul act = true -> dt = py_int) ->
     Forall (fun t => snd t <> 0) (entries A) ->
     Forall (fun t => snd t <> 0) (entries B) ->
     Forall (fun t => snd t <> 0) (entries M)).
Proof.
  intros HA HB VA VB SA SB. rewrite (op_result dt act A B HA HB).
  apply sorted_entries in SA, SB.
  pose proof (values_entries dt A HA VA) as DA.
  pose proof (values_entries dt B HB VB) as DB.
  eexists. split; [reflexivity|].
  destruct (of_entries_entries
              (Z.of_nat (length (merge_entries dt act (entries A) (entries B)))) []
              (merge_entries dt act (entries A) (entries B))) as [He Hp].
  split; [exact Hp|]. split; [|split; [|split; [|split]]].
  - apply sorted_entries. rewrite He. now apply merge_sorted.
  - unfold nnz, of_entries. cbn [_nnz data]. now rewrite length_map.
  - apply values_of_entries. now apply merge_of_dtype.
  - intros k. rewrite getitem_of_entries. now apply merge_get.
  - intros Hmul ZA ZB. rewrite He. now apply merge_nonzero.
Qed.

Lemma mul_coords_both (dt : dtype) :
  forall la lb k,
    In k (map coord (merge_entries dt act_mul la lb)) ->
    In k (map coord la) /\ In k (map coord lb).
Proof.
  induction la as [|a la IHa]; intros lb k H.
  - cbn [merge_entries] in H. rewrite flat_map_only_other_mul in H. destruct H.
  - induction lb as [|b lb IHb].
    + rewrite merge_entries_cons_nil in H. destruct H.
    + rewrite merge_entries_cons_cons in H.
      destruct (coord_ltb (fst b) (fst a)).
      * cbn [merge_only_other app] in H. destruct (IHb H) as [H1 H2].
        split; [exact H1 | now right].
      * destruct (key_eqb (fst b) (fst a)) eqn:Heq.
        -- apply key_eqb_eq in Heq. cbn [merge_both app map] in H.
           destruct H as [E|H].
           ++ unfold coord in *. cbn [fst] in E. subst k.
              split; [left; now symmetry | now left].
           ++ destruct (IHa lb k H) as [H1 H2]. split; now right.
        -- cbn [merge_only_self is_mul app] in H.
           destruct (IHa (b :: lb) k H) as [H1 H2]. split; [now right | exact H2].
Qed.

(** X1.  For operands of one integer element type (Python int, or numpy
    int64 with its wrap-around) with parallel sequences and strictly
    increasing row-major coordinates, [A + B] succeeds and every cell of
    the result reads as the sum, taken in the element type, of the
    operands' cells; the result again has parallel, strictly increasing
    sequences, values of the element type and [nnz] equal to the number
    of stored values. *)
Theorem add_is_cellwise_sum (dt : dtype) (A B : CSRMatrix Z) :
  parallel A -> parallel B ->
  values_of_dtype dt A -> values_of_dtype dt B ->
  strictly_sorted (coords A) = true -> strictly_sorted (coords B) = true ->
  exists M, __add__ dt A B = Ok M /\
    parallel M /\ strictly_sorted (coords M) = true /\
    nnz M = Z.of_nat (length (data M)) /\
    values_of_dtype dt M /\
    forall k, __getitem__ M k = norm dt (__getitem__ A k + __getitem__ B k).
Proof.
  intros HA HB VA VB SA SB.
  destruct (op_cellwise dt act_add A B HA HB VA VB SA SB)
    as (M & HM & Hp & Hs & Hn & Hv & Hg & _).
  exists M. split; [exact HM|]. split; [exact Hp|]. split; [exact Hs|].
  split; [exact Hn|]. split; [exact Hv | exact Hg].
Qed.

Lemma add_is_cellwise_sum_witness :
  exists M, __add__ np_int64 (init_ndarray dense_big) (init_ndarray dense_big)
            = Ok M /\
    parallel M /\ strictly_sorted (coords M) = true /\
    nnz M = Z.of_nat (length (data M)) /\
    values_of_dtype np_int64 M /\
    forall k, __getitem__ M k
              = norm np_int64 (__getitem__ (init_ndarray dense_big) k
                               + __getitem__ (init_ndarray dense_big) k).
Proof.
  apply (add_is_cellwise_sum np_int64
           (init_ndarray dense_big) (init_ndarray dense_big));
    try reflexivity; try (split; reflexivity); repeat constructor.
Defined.

(** X2.  Under the same conditions [A - B] succeeds and every cell of
    the result reads as the difference, taken in the element type, of
    the operands' cells, with the same invariants kept. *)
Theorem sub_is_cellwise_difference (dt : dtype) (A B : CSRMatrix Z) :
  parallel A -> parallel B ->
  values_of_dtype dt A -> values_of_dtype dt B ->
  strictly_sorted (coords A) = true -> strictly_sorted (coords B) = true ->
  exists M, __sub__ dt A B = Ok M /\
    parallel M /\ strictly_sorted (coords M) = true /\
    nnz M = Z.of_nat (length (data M)) /\
    values_of_dtype dt M /\
    forall k, __getitem__ M k = norm dt (__getitem__ A k - __getitem__ B k).
Proof.
  intros HA HB VA VB SA SB.
  destruct (op_cellwise dt act_sub A B HA HB VA VB SA SB)
    as (M & HM & Hp & Hs & Hn & Hv & Hg & _).
  exists M. split; [exact HM|]. split; [exact Hp|]. split; [exact Hs|].
  split; [exact Hn|]. split; [exact Hv | exact Hg].
Qed.

Lemma sub_is_cellwise_difference_witness :
  exists M, __sub__ np_int64 (init_ndarray dense_1002) (init_ndarray dense_0340)
            = Ok M /\
    parallel M /\ strictly_sorted (coords M) = true /\
    nnz M = Z.of_nat (length (data M)) /\
    values_of_dtype np_int64 M /\
    forall k, __getitem__ M k
              = norm np_int64 (__getitem__ (init_ndarray dense_1002) k
                               - __getitem__ (init_ndarray dense_0340) k).
Proof.
  apply (sub_is_cellwise_difference np_int64
           (init_ndarray dense_1002) (init_ndarray dense_0340));
    try reflexivity; try (split; reflexivity); repeat constructor.
Defined.

(** X3.  Under the same conditions the element-wise [A * B] succeeds and
    every cell of the result reads as the product, taken in the element
    type, of the operands' cells; only coordinates stored in both
    operands are stored in the result. *)
Theorem mul_is_cellwise_product (dt : dtype) (A B : CSRMatrix Z) :
  parallel A -> parallel B ->
  values_of_dtype dt A -> values_of_dtype dt B ->
  strictly_sorted (coords A) = true -> strictly_sorted (coords B) = true ->
  exists M, __mul__ dt A B = Ok M /\
    parallel M /\ strictly_sorted (coords M) = true /\
    nnz M = Z.of_nat (length (data M)) /\
    values_of_dtype dt M /\
    (forall k, __getitem__ M k = norm dt (__getitem__ A k * __getitem__ B k)) /\
    (forall k, In k (coords M) -> In k (coords A) /\ In k (coords B)).
Proof.
  intros HA HB VA VB SA SB.
  destruct (op_cellwise dt act_mul A B HA HB VA VB SA SB)
    as (M & HM & Hp & Hs & Hn & Hv & Hg & _).
  exists M. split; [exact HM|]. split; [exact Hp|]. split; [exact Hs|].
  split; [exact Hn|]. split; [exact Hv|]. split; [exact Hg|].
  intros k. unfold __mul__ in HM. rewrite (op_result dt act_mul A B HA HB) in HM.
  inversion HM; subst. unfold coords.
  rewrite (proj1 (of_entries_entries _ _ _)). apply mul_coords_both.
Qed.

Lemma mul_is_cellwise_product_witness :
  exists M, __mul__ np_int64 (init_ndarray dense_1002) (init_ndarray dense_1000)
            = Ok M /\
    parallel M /\ strictly_sorted (coords M) = true /\
    nnz M = Z.of_nat (length (data M)) /\
    values_of_dtype np_int64 M /\
    (forall k, __getitem__ M k
               = norm np_int64 (__getitem__ (init_ndarray dense_1002) k
                                * __getitem__ (init_ndarray dense_1000) k)) /\
    (forall k, In k (coords M) ->
               In k (coords (init_ndarray dense_1002)) /\
               In k (coords (init_ndarray dense_1000))).
Proof.
  apply (mul_is_cellwise_product np_int64
           (init_ndarray dense_1002) (init_ndarray dense_1000));
    try reflexivity; try (split; reflexivity); repeat constructor.
Defined.

(** X4.  For parallel, strictly increasing, zero-free operands of one
    integer element type, the results of [+] and [-] are zero-free (sums
    and differences that cancel in the element type are dropped, and the
    opposite of a non-zero value is non-zero); the result of the
    element-wise [*] is zero-free when the values are Python integers
    ([int64_product_stores_zero] shows that it need not be for int64,
    where two non-zero values can have the product 0). *)
Theorem elementwise_results_store_no_zero (dt : dtype) (A B : CSRMatrix Z) :
  parallel A -> parallel B ->
  values_of_dtype dt A -> values_of_dtype dt B ->
  strictly_sorted (coords A) = true -> strictly_sorted (coords B) = true ->
  Forall (fun t => snd t <> 0) (entries A) ->
  Forall (fun t => snd t <> 0) (entries B) ->
  exists Ma Ms Mm,
    __add__ dt A B = Ok Ma /\ __sub__ dt A B = Ok Ms /\ __mul__ dt A B = Ok Mm /\
    Forall (fun t => snd t <> 0) (entries Ma) /\
    Forall (fun t => snd t <> 0) (entries Ms) /\
    (dt = py_int -> Forall (fun t => snd t <> 0) (entries Mm)).
Proof.
  intros HA HB VA VB SA SB ZA ZB.
  destruct (op_cellwise dt act_add A B HA HB VA VB SA SB)
    as (Ma & Ha & _ & _ & _ & _ & _ & Hza).
  destruct (op_cellwise dt act_sub A B HA HB VA VB SA SB)
    as (Ms & Hs & _ & _ & _ & _ & _ & Hzs).
  destruct (op_cellwise dt act_mul A B HA HB VA VB SA SB)
    as (Mm & Hm & _ & _ & _ & _ & _ & Hzm).
  exists Ma, Ms, Mm.
  split; [exact Ha|]. split; [exact Hs|]. split; [exact Hm|].
  split; [apply Hza; [discriminate | exact ZA | exact ZB]|].
  split; [apply Hzs; [discriminate | exact ZA | exact ZB]|].
  intros Hdt. apply Hzm; [intros _; exact Hdt | exact ZA | exact ZB].
Qed.

Lemma elementwise_results_store_no_zero_witness :
  exists Ma Ms Mm,
    __add__ py_int lists_1002 lists_1000 = Ok Ma /\
    __sub__ py_int lists_1002 lists_1000 = Ok Ms /\
    __mul__ py_int lists_1002 lists_1000 = Ok Mm /\
    Forall (fun t => snd t <> 0) (entries Ma) /\
    Forall (fun t => snd t <> 0) (entries Ms) /\
    (py_int = py_int -> Forall (fun t => snd t <> 0) (entries Mm)).
Proof.
  apply (elementwise_results_store_no_zero py_int lists_1002 lists_1000);
    try reflexivity; try (split; reflexivity);
    vm_compute; repeat constructor; discriminate.
Defined.

(** Two non-zero [int64] values whose product is 0 in [int64]: the
    element-wise product stores that zero. *)
Lemma int64_product_stores_zero :
  __mul__ np_int64 (init_ndarray dense_big) (init_ndarray dense_four)
  = Ok (mk_CSRMatrix 1 [] [0] [0] [0]).
Proof. reflexivity. Qed.

(** The sum of two [int64] values wraps around; the same sum of Python
    integers does not. *)
Lemma int64_sum_wraps :
  __add__ np_int64 (init_ndarray dense_big) (init_ndarray dense_big)
  = Ok (mk_CSRMatrix 1 [] [0] [0] [- 2 ^ 63]) /\
  __add__ py_int lists_big lists_big
  = Ok (mk_CSRMatrix 1 [] [0] [0] [2 ^ 63]).
Proof. split; reflexivity. Qed.

Lemma merge_add_nil_r (dt : dtype) (la : list (Z * Z * Z)) :
  merge_entries dt act_add la [] = la.
Proof. destruct la; reflexivity. Qed.

Lemma merge_sub_nil_r (dt : dtype) (la : list (Z * Z * Z)) :
  merge_entries dt act_sub la [] = la.
Proof. destruct la; reflexivity. Qed.

Lemma parallel_empty (E : CSRMatrix Z) :
  parallel E -> data E = [] -> entries E = [].
Proof.
  intros [Hr Hc] Hd. unfold entries. rewrite Hd in *.
  destruct (row_ind E); [reflexivity | discriminate].
Qed.

(** X5.  A matrix that stores nothing is neutral for [+] and a right
    neutral for [-]: with parallel operands, [A + E], [E + A] and
    [A - E] succeed and store exactly [A]'s triplets, in [A]'s order. *)
Theorem empty_operand_is_neutral (dt : dtype) (A E : CSRMatrix Z) :
  parallel A -> parallel E -> data E = [] ->
  exists M1 M2 M3,
    __add__ dt A E = Ok M1 /\ __add__ dt E A = Ok M2 /\ __sub__ dt A E = Ok M3 /\
    entries M1 = entries A /\ entries M2 = entries A /\ entries M3 = entries A.
Proof.
  intros HA HE Hd. pose proof (parallel_empty E HE Hd) as He.
  unfold __add__, __sub__.
  rewrite (op_result dt act_add A E HA HE), (op_result dt act_add E A HE HA),
    (op_result dt act_sub A E HA HE), He.
  rewrite merge_add_nil_r, merge_sub_nil_r. cbn [merge_entries].
  rewrite flat_map_only_other_add.
  do 3 eexists. repeat (split; [reflexivity|]).
  repeat split; apply of_entries_entries.
Qed.

Lemma empty_operand_is_neutral_witness :
  exists M1 M2 M3,
    __add__ np_int64 (init_ndarray dense_1002) (init_ndarray dense_zero) = Ok M1 /\
    __add__ np_int64 (init_ndarray dense_zero) (init_ndarray dense_1002) = Ok M2 /\
    __sub__ np_int64 (init_ndarray dense_1002) (init_ndarray dense_zero) = Ok M3 /\
    entries M1 = entries (init_ndarray dense_1002) /\
    entries M2 = entries (init_ndarray dense_1002) /\
    entries M3 = entries (init_ndarray dense_1002).
Proof.
  apply (empty_operand_is_neutral np_int64
           (init_ndarray dense_1002) (init_ndarray dense_zero));
    try reflexivity; split; reflexivity.
Defined.

(** X6.  Addition and subtraction compose: for parallel, strictly
    increasing operands of one integer element type (Python int, or
    numpy int64 with its wrap-around), [(A + B) - B] succeeds and every
    cell of it reads as the same cell of [A]. *)
Theorem add_then_sub_restores_cells (dt : dtype) (A B : CSRMatrix Z) :
  parallel A -> parallel B ->
  values_of_dtype dt A -> values_of_dtype dt B ->
  strictly_sorted (coords A) = true -> strictly_sorted (coords B) = true ->
  exists M M', __add__ dt A B = Ok M /\ __sub__ dt M B = Ok M' /\
    forall k, __getitem__ M' k = __getitem__ A k.
Proof.
  intros HA HB VA VB SA SB.
  destruct (op_cellwise dt act_add A B HA HB VA VB SA SB)
    as (M & HM & Hp & Hs & _ & Hv & Hg & _).
  destruct (op_cellwise dt act_sub M B Hp HB Hv VB Hs SB)
    as (M' & HM' & _ & _ & _ & _ & Hg' & _).
  exists M, M'. split; [exact HM|]. split; [exact HM'|].
  intros k. rewrite Hg', Hg. cbn [apply_action].
  rewrite norm_sub_l.
  replace (__getitem__ A k + __getitem__ B k - __getitem__ B k)
    with (__getitem__ A k) by lia.
  now apply getitem_of_dtype.
Qed.

Lemma add_then_sub_restores_cells_witness :
  exists M M',
    __add__ np_int64 (init_ndarray dense_big) (init_ndarray dense_big) = Ok M /\
    __sub__ np_int64 M (init_ndarray dense_big) = Ok M' /\
    forall k, __getitem__ M' k = __getitem__ (init_ndarray dense_big) k.
Proof.
  apply (add_then_sub_restores_cells np_int64
           (init_ndarray dense_big) (init_ndarray dense_big));
    try reflexivity; try (split; reflexivity); repeat constructor.
Defined.

(** ** Element assignment followed by element access *)

Lemma list_backed_parallel (a : CSRMatrix Z) : list_backed a -> parallel a.
Proof.
  induction 1 as [D | a a' key value Hb IH Hset].
  - apply (init_ndarray_invariants D).
  - rewrite (setitem_entries a key value IH) in Hset.
    inversion Hset; subst. apply of_entries_entries.
Qed.

(** X7.  Assignment and access agree: on a list-backed matrix (built
    from a dense array, then changed by assignments only)
    [a[key] = value] succeeds and a following [a[key]] returns [value],
    for every non-zero [value], and for [value = 0] too when no
    coordinate is stored twice. *)
Theorem setitem_then_getitem_returns_value (self : CSRMatrix Z)
  (key : Z * Z) (value : Z) :
  list_backed self ->
  value <> 0 \/ NoDup (coords self) ->
  exists a', __setitem__ self key value = Ok a' /\ __getitem__ a' key = value.
Proof.
  intros Hb Hv. pose proof (list_backed_parallel self Hb) as Hp. rewrite (setitem_entries self key value Hp).
  eexists. split; [reflexivity|].
  rewrite getitem_of_entries. now apply get_set_same.
Qed.

Lemma setitem_then_getitem_returns_value_witness :
  (exists a', __setitem__ (init_ndarray dense_1002) (1, 1) 7 = Ok a' /\
              __getitem__ a' (1, 1) = 7) /\
  (exists a', __setitem__ (init_ndarray dense_1002) (1, 1) 0 = Ok a' /\
              __getitem__ a' (1, 1) = 0).
Proof.
  split.
  - apply (setitem_then_getitem_returns_value (init_ndarray dense_1002) (1, 1) 7).
    + apply list_backed_dense.
    + left. discriminate.
  - apply (setitem_then_getitem_returns_value (init_ndarray dense_1002) (1, 1) 0).
    + apply list_backed_dense.
    + right. vm_compute. repeat constructor; simpl; intuition discriminate.
Defined.

(** X8.  Assignment touches one cell only: on a list-backed matrix
    [a[key] = value] succeeds, keeps the sequences parallel and the
    shape unchanged, and every other coordinate reads as before. *)
Theorem setitem_leaves_other_cells (self : CSRMatrix Z) (key : Z * Z) (value : Z) :
  list_backed self ->
  exists a', __setitem__ self key value = Ok a' /\
    parallel a' /\ shape a' = shape self /\
    forall key', key' <> key -> __getitem__ a' key' = __getitem__ self key'.
Proof.
  intros Hb. pose proof (list_backed_parallel self Hb) as Hp. rewrite (setitem_entries self key value Hp).
  eexists. split; [reflexivity|].
  split; [apply of_entries_entries|]. split; [reflexivity|].
  intros key' Hne. rewrite getitem_of_entries. unfold __getitem__.
  fold (entries self). now apply get_set_other.
Qed.

Lemma setitem_leaves_other_cells_witness :
  exists a', __setitem__ (init_ndarray dense_1002) (0, 1) 9 = Ok a' /\
    parallel a' /\ shape a' = [2; 2] /\
    forall key', key' <> (0, 1) ->
      __getitem__ a' key' = __getitem__ (init_ndarray dense_1002) key'.
Proof.
  apply (setitem_leaves_other_cells (init_ndarray dense_1002) (0, 1) 9).
  apply list_backed_dense.
Defined.

Lemma set_count_cases (key : Z * Z) (value : Z) (e : list (Z * Z * Z)) (n : Z) :
  ((exists c, In c (map coord e) /\ (c = key \/ coord_lt_prop c key)) /\
   set_nnz key value e n - Z.of_nat (length (set_entries key value e))
   = n - Z.of_nat (length e)) \/
  ((forall c, In c (map coord e) -> ~ (c = key \/ coord_lt_prop c key)) /\
   set_nnz key value e n = n /\
   length (set_entries key value e) = S (length e)).
Proof.
  induction e as [|[c d] e IH]; cbn [set_entries set_nnz map length].
  - right. split; [intros c []|]. split; reflexivity.
  - destruct (key_eqb key c) eqn:Ek.
    + left. apply key_eqb_eq in Ek. subst c. split.
      * exists key. split; [now left | now left].
      * destruct (value =? 0); cbn [length]; lia.
    + destruct (coord_ltb c key) eqn:El.
      * left. split.
        -- exists c. split; [now left|]. right. now apply coord_ltb_lt.
        -- cbn [length]. lia.
      * destruct IH as [[(c' & Hin & Hc') Hcount]|(Hall & Hn & Hl)].
        -- left. split; [exists c'; split; [now right | exact Hc']|].
           cbn [length]. lia.
        -- right. split; [|split; [exact Hn | cbn [length]; now rewrite Hl]].
           intros c' [<-|Hin]; [|now apply Hall].
           unfold coord. cbn [fst]. intros [E|L].
           ++ subst. rewrite key_eqb_refl in Ek. discriminate.
           ++ apply coord_ltb_lt in L. congruence.
Qed.

(** X9.  When [nnz] counts the stored values before an assignment to a
    list-backed matrix, it still counts them afterwards exactly when
    some stored coordinate is equal to or smaller than the key; when all
    stored coordinates are greater (or nothing is stored) the triplet is
    appended and [nnz] falls one short. *)
Theorem setitem_counts_unless_appending (self : CSRMatrix Z)
  (key : Z * Z) (value : Z) :
  list_backed self -> nnz self = Z.of_nat (length (data self)) ->
  exists a', __setitem__ self key value = Ok a' /\
    (nnz a' = Z.of_nat (length (data a')) <->
     exists c, In c (coords self) /\ (c = key \/ coord_lt_prop c key)) /\
    ((forall c, In c (coords self) -> ~ (c = key \/ coord_lt_prop c key)) ->
     nnz a' = Z.of_nat (length (data a')) - 1).
Proof.
  intros Hb Hn. pose proof (list_backed_parallel self Hb) as Hp.
  rewrite (setitem_entries self key value Hp).
  eexists. split; [reflexivity|].
  unfold nnz in *. unfold of_entries. cbn [_nnz data]. rewrite length_map.
  rewrite <- (entries_length self Hp) in Hn. unfold coords.
  destruct (set_count_cases key value (entries self) (_nnz self))
    as [[Hex Hcount]|(Hall & Hsame & Hlen)].
  - split; [split; [intros _; exact Hex | intros _; lia]|].
    intros Hno. destruct Hex as (c & Hin & Hc). destruct (Hno c Hin Hc).
  - split; [split|].
    + intros H. rewrite Hsame, Hlen in H. lia.
    + intros (c & Hin & Hc). destruct (Hall c Hin Hc).
    + intros _. rewrite Hsame, Hlen. lia.
Qed.

Lemma setitem_counts_unless_appending_witness :
  (exists a', __setitem__ (init_ndarray dense_1002) (1, 0) 4 = Ok a' /\
              nnz a' = Z.of_nat (length (data a'))) /\
  (exists a', __setitem__ (init_ndarray dense_zero) (0, 0) 4 = Ok a' /\
              nnz a' = Z.of_nat (length (data a')) - 1).
Proof.
  split.
  - destruct (setitem_counts_unless_appending (init_ndarray dense_1002) (1, 0) 4)
      as (a' & Ha & Hiff & _); [apply list_backed_dense | reflexivity |].
    exists a'. split; [exact Ha|]. apply Hiff.
    exists (0, 0). split; [left; reflexivity|]. right. left. cbn. lia.
  - destruct (setitem_counts_unless_appending (init_ndarray dense_zero) (0, 0) 4)
      as (a' & Ha & _ & Happ); [apply list_backed_dense | reflexivity |].
    exists a'. split; [exact Ha|]. apply Happ. intros c [].
Defined.

(** X10.  On a list-backed matrix whose first stored coordinate is
    smaller than the key, the assignment puts the key in front of it:
    the coordinate list becomes the key followed by the old list, which
    is not in row-major order, and [_nnz] grows by one. *)
Theorem setitem_after_smaller_first_breaks_order (self : CSRMatrix Z)
  (key : Z * Z) (value : Z) (c : Z * Z) (d : Z) (rest : list (Z * Z * Z)) :
  list_backed self -> entries self = (c, d) :: rest -> coord_lt_prop c key ->
  exists a', __setitem__ self key value = Ok a' /\
    entries a' = (key, value) :: entries self /\
    nnz a' = nnz self + 1 /\
    strictly_sorted (coords a') = false.
Proof.
  intros Hb He Hlt. pose proof (list_backed_parallel self Hb) as Hp.
  rewrite (setitem_entries self key value Hp), He.
  cbn [set_entries set_nnz].
  assert (Ek : key_eqb key c = false).
  { destruct (key_eqb key c) eqn:E; [|reflexivity].
    apply key_eqb_eq in E. subst. destruct (coord_lt_irrefl _ Hlt). }
  rewrite Ek, (proj2 (coord_ltb_lt c key) Hlt).
  eexists. split; [reflexivity|].
  unfold coords. rewrite (proj1 (of_entries_entries _ _ _)).
  split; [reflexivity|]. split; [reflexivity|].
  cbn [map coord fst strictly_sorted].
  destruct (coord_ltb key c) eqn:E; [|reflexivity].
  apply coord_ltb_lt in E. unfold coord_lt_prop in *. lia.
Qed.

Lemma setitem_after_smaller_first_breaks_order_witness :
  exists a', __setitem__ (init_ndarray dense_1002) (0, 1) 9 = Ok a' /\
    entries a' = ((0, 1), 9) :: entries (init_ndarray dense_1002) /\
    nnz a' = nnz (init_ndarray dense_1002) + 1 /\
    strictly_sorted (coords a') = false.
Proof.
  apply (setitem_after_smaller_first_breaks_order
           (init_ndarray dense_1002) (0, 1) 9 (0, 0) 1 [((1, 1), 2)]).
  - apply list_backed_dense.
  - reflexivity.
  - right. cbn. lia.
Defined.

(** ** Construction from a dense array *)

Lemma StronglySorted_NoDup (l : list (Z * Z)) :
  StronglySorted coord_lt_prop l -> NoDup l.
Proof.
  induction 1 as [|a l Hs IH Hall]; constructor; [|exact IH].
  intros Hin. rewrite Forall_forall in Hall.
  exact (coord_lt_irrefl a (Hall a Hin)).
Qed.

Lemma getitem_loop_In (k : Z * Z) (v : Z) (l : list (Z * Z * Z)) :
  NoDup (map fst l) -> In (k, v) l -> getitem_loop k l = v.
Proof.
  induction l as [|t l IH]; intros Hnd Hin; [destruct Hin|].
  cbn [map] in Hnd. inversion Hnd as [|? ? Hnot Hnd']; subst.
  rewrite getitem_loop_cons. destruct Hin as [->|Hin].
  - cbn [fst snd]. now rewrite key_eqb_refl.
  - destruct (key_eqb k (fst t)) eqn:E; [|now apply IH].
    apply key_eqb_eq in E. subst k. exfalso. apply Hnot.
    apply (in_map fst) in Hin. exact Hin.
Qed.

Lemma init_ndarray_NoDup (D : ndarray) : NoDup (coords (init_ndarray D)).
Proof.
  apply StronglySorted_NoDup, strictly_sorted_strong.
  apply (init_ndarray_invariants D).
Qed.

(** X11.  The matrix built from a dense array stores exactly the
    non-zero cells of the array, each once, with parallel sequences in
    strictly increasing row-major order; [nnz] is their number and
    [shape] is the array's shape. *)
Theorem dense_constructor_stores_nonzero_cells (D : ndarray) :
  parallel (init_ndarray D) /\
  strictly_sorted (coords (init_ndarray D)) = true /\
  NoDup (coords (init_ndarray D)) /\
  nnz (init_ndarray D) = Z.of_nat (length (entries (init_ndarray D))) /\
  shape (init_ndarray D) = [Z.of_nat (nd_shape0 D); Z.of_nat (nd_shape1 D)] /\
  forall t, In t (entries (init_ndarray D)) <->
    exists i j, (i < nd_shape0 D)%nat /\ (j < nd_shape1 D)%nat /\
                nd_get D i j <> 0 /\
                t = (Z.of_nat i, Z.of_nat j, nd_get D i j).
Proof.
  destruct (init_ndarray_invariants D) as (Hp & Hs & _).
  split; [exact Hp|]. split; [exact Hs|]. split; [apply init_ndarray_NoDup|].
  split; [|split; [apply init_ndarray_shape|]].
  - rewrite init_ndarray_nnz. now rewrite (entries_length _ Hp).
  - intros t. rewrite (proj1 (init_ndarray_entries D)). apply dense_cells_In.
Qed.

(** X12.  Access after construction reads the array back: for the
    matrix built from a dense array [D], [a[i, j]] is [D[i, j]] for every
    in-range [(i, j)], and 0 for every coordinate outside [D]'s shape. *)
Theorem dense_constructor_then_getitem (D : ndarray) :
  (forall i j, (i < nd_shape0 D)%nat -> (j < nd_shape1 D)%nat ->
     __getitem__ (init_ndarray D) (Z.of_nat i, Z.of_nat j) = nd_get D i j) /\
  (forall key, ~ in_bounds D key -> __getitem__ (init_ndarray D) key = 0).
Proof.
  pose proof (init_ndarray_NoDup D) as Hnd.
  pose proof (proj1 (init_ndarray_entries D)) as He.
  unfold __getitem__. fold (entries (init_ndarray D)).
  unfold coords in Hnd. split.
  - intros i j Hi Hj. destruct (Z.eq_dec (nd_get D i j) 0) as [E|E].
    + rewrite E. apply getitem_loop_not_stored. intros Hin.
      apply in_map_iff in Hin. destruct Hin as (t & Ht & Hin).
      rewrite He in Hin. apply dense_cells_In in Hin.
      destruct Hin as (i' & j' & _ & _ & Hnz & ->). cbn [fst] in Ht.
      inversion Ht. apply Nat2Z.inj in H0, H1. subst. contradiction.
    + apply getitem_loop_In; [exact Hnd|]. rewrite He.
      apply dense_cells_In. now exists i, j.
  - intros key Hout. apply getitem_loop_not_stored. intros Hin.
    apply in_map_iff in Hin. destruct Hin as (t & Ht & Hin).
    rewrite He in Hin. apply dense_cells_In in Hin.
    destruct Hin as (i & j & Hi & Hj & _ & ->). cbn [fst] in Ht. subst key.
    apply Hout. unfold in_bounds. cbn [fst snd]. lia.
Qed.

Lemma dense_constructor_then_getitem_witness :
  __getitem__ (init_ndarray dense_0340) (1, 0) = 4 /\
  __getitem__ (init_ndarray dense_0340) (0, 0) = 0 /\
  __getitem__ (init_ndarray dense_0340) (2, 0) = 0.
Proof.
  destruct (dense_constructor_then_getitem dense_0340) as [Hin Hout].
  split; [|split].
  - apply (Hin 1%nat 0%nat); simpl; lia.
  - apply (Hin 0%nat 0%nat); simpl; lia.
  - apply Hout. unfold in_bounds. simpl. lia.
Defined.

(** ** Scalar multiplication *)

Lemma getitem_loop_map_data (f : Z -> Z) (key : Z * Z) (r c d : list Z) :
  f 0 = 0 ->
  getitem_loop key (zip3 r c (map f d)) = f (getitem_loop key (zip3 r c d)).
Proof.
  intros Hf. revert c d. induction r as [|x r IH]; intros [|y c] [|z d];
    try (symmetry; exact Hf).
  cbn [map zip3 getitem_loop].
  destruct ((fst key =? x) && (snd key =? y)); [reflexivity | apply IH].
Qed.

Lemma zip3_map_data (f : Z -> Z) (r c d : list Z) :
  zip3 r c (map f d) = map (fun t => (fst t, f (snd t))) (zip3 r c d).
Proof.
  revert c d. induction r as [|x r IH]; intros [|y c] [|z d];
    try reflexivity.
  cbn [map zip3 fst snd]. now rewrite IH.
Qed.

(** X13.  For an integer scalar [alpha] of the matrix's element type
    (Python int, or numpy int64 with its wrap-around), [alpha * a] never
    raises and every cell of the result reads as the cell of [a] times
    [alpha], taken in the element type; for [alpha = 0] the result
    stores nothing ([nnz] is 0), otherwise it stores the same
    coordinates in the same order with scaled values. *)
Theorem rmul_scales_every_cell (dt : dtype) (self : CSRMatrix Z) (alpha : Z) :
  of_dtype dt alpha ->
  exists M, __rmul__ dt self alpha = Ok M /\
    (forall key, __getitem__ M key = norm dt (__getitem__ self key * alpha)) /\
    entries M = (if alpha =? 0 then []
                 else map (fun t => (fst t, norm dt (snd t * alpha)))
                        (entries self)) /\
    nnz M = (if alpha =? 0 then 0 else Z.of_nat (length (data self))).
Proof.
  intros _. unfold __rmul__. destruct (Z.eqb_spec alpha 0) as [->|Ha].
  - eexists. split; [reflexivity|]. split; [|split; reflexivity].
    intros key. unfold __getitem__ at 1. cbn [__init__ init_tuple row_ind
      column_ind data zip3 getitem_loop].
    now rewrite Z.mul_0_r, norm_0.
  - eexists. split; [reflexivity|]. cbn [init_tuple]. split; [|split].
    + intros key. unfold __getitem__. cbn [row_ind column_ind data].
      apply (getitem_loop_map_data (fun i => norm dt (i * alpha))).
      apply norm_0.
    + unfold entries. cbn [row_ind column_ind data].
      apply (zip3_map_data (fun i => norm dt (i * alpha))).
    + unfold nnz. cbn [_nnz]. now rewrite length_map.
Qed.

Lemma rmul_scales_every_cell_witness :
  exists M, __rmul__ np_int64 (init_ndarray dense_big) 4 = Ok M /\
    (forall key, __getitem__ M key
                 = norm np_int64 (__getitem__ (init_ndarray dense_big) key * 4)) /\
    entries M = [(0, 0, 0)] /\
    nnz M = 1.
Proof.
  destruct (rmul_scales_every_cell np_int64 (init_ndarray dense_big) 4)
    as (M & HM & Hg & He & Hn); [reflexivity|].
  exists M. split; [exact HM|]. split; [exact Hg|]. split.
  - rewrite He. reflexivity.
  - rewrite Hn. reflexivity.
Defined.

(** ** Matrix product, cell by cell *)

Lemma dict_val_absent (k : Z * Z) (res : dict) :
  ~ In k (map fst res) -> dict_val k res = 0.
Proof.
  induction res as [|[k' v'] res IH]; intros H; [reflexivity|].
  cbn [dict_val]. destruct (key_eqb k k') eqn:E.
  - apply key_eqb_eq in E. exfalso. apply H. left. now symmetry.
  - apply IH. intros Hin. apply H. now right.
Qed.

Lemma getitem_loop_filter_nonzero (k : Z * Z) (res : dict) :
  NoDup (map fst res) ->
  getitem_loop k (filter nonzero_item res) = dict_val k res.
Proof.
  induction res as [|[k' v'] res IH]; intros Hnd; [reflexivity|].
  cbn [map fst] in Hnd. inversion Hnd as [|? ? Hnot Hnd']; subst.
  cbn [filter dict_val].
  replace (nonzero_item (k', v')) with (negb (v' =? 0)) by reflexivity.
  destruct (Z.eqb_spec v' 0) as [->|Hv]; cbn [negb].
  - rewrite (IH Hnd'). destruct (key_eqb k k') eqn:E; [|reflexivity].
    apply key_eqb_eq in E. subst k'. now apply dict_val_absent.
  - rewrite getitem_loop_cons. cbn [fst snd].
    destruct (key_eqb k k'); [reflexivity | exact (IH Hnd')].
Qed.

Lemma matmul_getitem (dt : dtype) (A B M : CSRMatrix Z) (k : Z * Z) :
  __init__ (PyTuple3 (matmul_emit (matmul_accumulate dt A B))) = Ok M ->
  __getitem__ M k = norm dt (matmul_sum A B k).
Proof.
  intros HM. destruct (matmul_entries dt A B M HM) as (He & _ & _).
  unfold __getitem__. fold (entries M). rewrite He.
  rewrite getitem_loop_filter_nonzero by apply matmul_accumulate_NoDup.
  apply matmul_accumulate_val.
Qed.

Lemma matmul_Ok (dt : dtype) (A B : CSRMatrix Z) (n : Z) :
  py_last (shape A) = Ok n -> py_idx (shape B) 0 = Ok n ->
  __matmul__ dt A B
  = __init__ (PyTuple3 (matmul_emit (matmul_accumulate dt A B))).
Proof.
  intros Ha Hb. unfold __matmul__. rewrite Ha, Hb. cbn [bind].
  now rewrite Z.eqb_refl.
Qed.

(** Sums over the stored triplets. *)
Lemma sum_list_prod (key : Z * Z) (la lb : list (Z * Z * Z)) :
  fold_right Z.add 0 (map (contribution key) (list_prod la lb))
  = fold_right Z.add 0
      (map (fun t1 => fold_right Z.add 0
                        (map (fun t2 => contribution key (t1, t2)) lb)) la).
Proof.
  induction la as [|a la IH]; [reflexivity|].
  cbn [list_prod map fold_right]. rewrite map_app, map_map.
  rewrite <- IH. clear IH.
  induction (map (fun y => contribution key (a, y)) lb) as [|x l IHl];
    cbn [app fold_right]; [reflexivity | lia].
Qed.

Lemma sum_row_of_other (r1 c1 v1 r c : Z) (lb : list (Z * Z * Z)) :
  NoDup (map fst lb) ->
  fold_right Z.add 0
    (map (fun t2 => contribution (r, c) ((r1, c1, v1), t2)) lb)
  = if r1 =? r then v1 * getitem_loop (c1, c) lb else 0.
Proof.
  induction lb as [|[[r2 c2] v2] lb IH]; intros Hnd.
  - cbn. destruct (r1 =? r); lia.
  - cbn [map fst] in Hnd. inversion Hnd as [|? ? Hnot Hnd']; subst.
    cbn [map fold_right]. rewrite (IH Hnd'). clear IH.
    cbn [contribution getitem_loop fst snd]. unfold key_eqb. cbn [fst snd].
    rewrite (Z.eqb_sym c c2).
    destruct (Z.eqb_spec c1 r2) as [->|Hc]; cbn [andb].
    + destruct (Z.eqb_spec r1 r) as [->|Hr]; cbn [andb]; [|lia].
      destruct (Z.eqb_spec c2 c) as [->|Hcc]; [|lia].
      rewrite (getitem_loop_not_stored (r2, c) lb Hnot). lia.
    + destruct (r1 =? r); lia.
Qed.

Lemma sum_upto_ext (f g : nat -> Z) (n : nat) :
  (forall k, (k < n)%nat -> f k = g k) -> sum_upto f n = sum_upto g n.
Proof.
  induction n as [|n IH]; intros H; [reflexivity|].
  cbn [sum_upto]. rewrite IH by (intros k Hk; apply H; lia).
  rewrite (H n) by lia. reflexivity.
Qed.

Lemma sum_upto_point (f g : nat -> Z) (n k0 : nat) :
  (k0 < n)%nat -> (forall k, k <> k0 -> g k = f k) ->
  sum_upto g n = sum_upto f n + (g k0 - f k0).
Proof.
  induction n as [|n IH]; intros Hk Hext; [lia|].
  cbn [sum_upto]. destruct (Nat.eq_dec k0 n) as [->|Hne].
  - rewrite (sum_upto_ext g f n); [lia|].
    intros k Hlt. apply Hext. lia.
  - rewrite IH by (assumption || lia). rewrite (Hext n) by congruence. lia.
Qed.

Lemma sum_dot_product (r c : Z) (n : nat) (la lb : list (Z * Z * Z)) :
  NoDup (map fst la) ->
  (forall t, In t la -> 0 <= snd (fst t) < Z.of_nat n) ->
  fold_right Z.add 0
    (map (fun t1 => if fst (fst t1) =? r
                    then snd t1 * getitem_loop (snd (fst t1), c) lb else 0) la)
  = sum_upto (fun k => getitem_loop (r, Z.of_nat k) la
                       * getitem_loop (Z.of_nat k, c) lb) n.
Proof.
  induction la as [|[[r1 c1] v1] la IH]; intros Hnd Hcol.
  - cbn [map fold_right getitem_loop]. induction n as [|n IHn]; [reflexivity|].
    cbn [sum_upto]. rewrite <- IHn; [lia | intros t []].
  - cbn [map fst] in Hnd. inversion Hnd as [|? ? Hnot Hnd']; subst.
    cbn [map fold_right fst snd].
    rewrite (IH Hnd') by (intros t Ht; apply Hcol; now right). clear IH.
    assert (Hc1 : 0 <= c1 < Z.of_nat n) by (apply (Hcol (r1, c1, v1)); now left).
    destruct (Z.eqb_spec r1 r) as [->|Hr].
    + rewrite (sum_upto_point
                 (fun k => getitem_loop (r, Z.of_nat k) la
                           * getitem_loop (Z.of_nat k, c) lb)
                 (fun k => getitem_loop (r, Z.of_nat k) ((r, c1, v1) :: la)
                           * getitem_loop (Z.of_nat k, c) lb)
                 n (Z.to_nat c1)); [|lia|].
      * cbn [getitem_loop fst snd]. rewrite Z2Nat.id by lia.
        rewrite !Z.eqb_refl. cbn [andb].
        rewrite (getitem_loop_not_stored (r, c1) la Hnot). lia.
      * intros k Hk. cbn [getitem_loop fst snd]. rewrite Z.eqb_refl. cbn [andb].
        destruct (Z.eqb_spec (Z.of_nat k) c1) as [E|E]; [|reflexivity].
        exfalso. apply Hk. subst c1. now rewrite Nat2Z.id.
    + apply sum_upto_ext. intros k _. cbn [getitem_loop fst snd].
      destruct (Z.eqb_spec r r1) as [E|E]; [congruence | reflexivity].
Qed.

(** The accumulated sum is the textbook dot product of row and column. *)
Lemma matmul_sum_dot_product (A B : CSRMatrix Z) (n : nat) (r c : Z) :
  NoDup (coords A) -> NoDup (coords B) ->
  (forall t, In t (entries A) -> 0 <= snd (fst t) < Z.of_nat n) ->
  matmul_sum A B (r, c)
  = sum_upto (fun k => __getitem__ A (r, Z.of_nat k)
                       * __getitem__ B (Z.of_nat k, c)) n.
Proof.
  intros HA HB Hcol. unfold matmul_sum. rewrite sum_list_prod.
  etransitivity;
    [|exact (sum_dot_product r c n (entries A) (entries B) HA Hcol)].
  f_equal. apply map_ext. intros [[r1 c1] v1]. cbn [fst snd].
  now apply sum_row_of_other.
Qed.

(** X14.  For operands whose values are integers of one element type
    (Python int, or numpy int64 with its wrap-around): whenever the
    shapes let [A @ B] through, every cell of the product reads as the
    accumulated sum of [v1 * v2] over the pairs of stored triplets whose
    inner indices meet at that cell, taken in the element type; cells
    whose sum is zero there read 0 like every absent cell. *)
Theorem matmul_getitem_is_accumulated_sum (dt : dtype) (A B : CSRMatrix Z) (n : Z) :
  py_last (shape A) = Ok n -> py_idx (shape B) 0 = Ok n ->
  exists M, __matmul__ dt A B = Ok M /\
    forall k, __getitem__ M k = norm dt (matmul_sum A B k).
Proof.
  intros Ha Hb. rewrite (matmul_Ok dt A B n Ha Hb).
  destruct (__init__ (PyTuple3 (matmul_emit (matmul_accumulate dt A B))))
    as [M| |] eqn:HM; try discriminate HM.
  exists M. split; [reflexivity|]. intros k. now apply matmul_getitem.
Qed.

Lemma matmul_getitem_is_accumulated_sum_witness :
  exists M, __matmul__ np_int64 (init_ndarray dense_big) (init_ndarray dense_four)
            = Ok M /\
    forall k, __getitem__ M k
              = norm np_int64
                  (matmul_sum (init_ndarray dense_big) (init_ndarray dense_four) k).
Proof.
  apply (matmul_getitem_is_accumulated_sum np_int64
           (init_ndarray dense_big) (init_ndarray dense_four) 1); reflexivity.
Defined.

(** A product of [int64] values that wraps to 0 is not stored. *)
Lemma int64_matmul_wraps :
  __matmul__ np_int64 (init_ndarray dense_big) (init_ndarray dense_four)
  = Ok (mk_CSRMatrix 0 [] [] [] []).
Proof. reflexivity. Qed.

(** X15.  [A @ B] is the textbook matrix product in the element type
    (Python int, or numpy int64 with its wrap-around): when no
    coordinate is stored twice in either operand and every column index
    stored in [A] lies in [0, n), each cell [(r, c)] of the product reads
    as the sum over [k < n] of [A[r, k] * B[k, c]], reduced to the
    element type. *)
Theorem matmul_is_row_by_column_product (dt : dtype) (A B : CSRMatrix Z)
  (s : Z) (n : nat) :
  py_last (shape A) = Ok s -> py_idx (shape B) 0 = Ok s ->
  NoDup (coords A) -> NoDup (coords B) ->
  (forall t, In t (entries A) -> 0 <= snd (fst t) < Z.of_nat n) ->
  exists M, __matmul__ dt A B = Ok M /\
    forall r c, __getitem__ M (r, c)
      = norm dt (sum_upto (fun k => __getitem__ A (r, Z.of_nat k)
                                    * __getitem__ B (Z.of_nat k, c)) n).
Proof.
  intros Ha Hb HA HB Hcol. rewrite (matmul_Ok dt A B s Ha Hb).
  destruct (__init__ (PyTuple3 (matmul_emit (matmul_accumulate dt A B))))
    as [M| |] eqn:HM; try discriminate HM.
  exists M. split; [reflexivity|]. intros r c.
  rewrite (matmul_getitem dt A B M (r, c) HM). f_equal.
  now apply matmul_sum_dot_product.
Qed.

Lemma matmul_is_row_by_column_product_witness :
  exists M, __matmul__ np_int64 (init_ndarray dense_1002) (init_ndarray dense_0340)
            = Ok M /\
    forall r c, __getitem__ M (r, c)
      = norm np_int64
          (sum_upto (fun k => __getitem__ (init_ndarray dense_1002) (r, Z.of_nat k)
                              * __getitem__ (init_ndarray dense_0340) (Z.of_nat k, c))
             2).
Proof.
  apply (matmul_is_row_by_column_product np_int64
           (init_ndarray dense_1002) (init_ndarray dense_0340) 2 2);
    try reflexivity.
  - apply init_ndarray_NoDup.
  - apply init_ndarray_NoDup.
  - intros t Ht. vm_compute in Ht.
    destruct Ht as [<-|[<-|[]]]; simpl; lia.
Defined.

(** X16.  [@] needs a shape on both sides: if either operand has the
    empty shape the call raises [IndexError].  Every product is built
    through the tuple branch of the constructor, so a product can never
    be multiplied again, on either side. *)
Theorem matmul_cannot_be_chained :
  (forall dt A B, shape A = [] \/ shape B = [] ->
                  __matmul__ dt A B = Raise IndexError) /\
  (forall dt dt' A B C M, __matmul__ dt A B = Ok M ->
                          __matmul__ dt' M C = Raise IndexError /\
                          __matmul__ dt' C M = Raise IndexError).
Proof.
  assert (Hempty : forall dt A B, shape A = [] \/ shape B = [] ->
                                  __matmul__ dt A B = Raise IndexError).
  { intros dt A B [H|H]; unfold __matmul__; rewrite H.
    - reflexivity.
    - destruct (py_last (shape A)) as [a|e|] eqn:Ha; cbn [bind]; try reflexivity.
      + unfold py_last in Ha. destruct (rev (shape A)); inversion Ha. reflexivity.
      + unfold py_last in Ha. destruct (rev (shape A)); discriminate. }
  split; [exact Hempty|].
  intros dt dt' A B C M HM.
  assert (Hs : shape M = []).
  { unfold __matmul__ in HM.
    apply bind_Ok in HM. destruct HM as (a & _ & HM).
    apply bind_Ok in HM. destruct HM as (b & _ & HM).
    destruct (negb (a =? b)); [discriminate|].
    cbn [__init__] in HM. inversion HM. apply init_tuple_shape. }
  split; apply Hempty; [now left | now right].
Qed.

Lemma matmul_cannot_be_chained_witness :
  exists M, __matmul__ np_int64 (init_ndarray dense_1002) (init_ndarray dense_0340)
            = Ok M /\
    __matmul__ np_int64 M (init_ndarray dense_1002) = Raise IndexError /\
    __matmul__ np_int64 (init_ndarray dense_1002) M = Raise IndexError.
Proof.
  destruct matmul_cannot_be_chained as [_ Hchain].
  eexists. split; [reflexivity|].
  apply (Hchain np_int64 np_int64 (init_ndarray dense_1002) (init_ndarray dense_0340)).
  reflexivity.
Defined.

(** ** Densification, cell by cell *)

Lemma py_last_map_inv {A B : Type} (f : A -> B) (l : list A) (x : B) :
  py_last (map f l) = Ok x -> exists l' t, l = l' ++ [t] /\ x = f t.
Proof.
  unfold py_last. intros H.
  destruct l as [|a l] using rev_ind; [discriminate|].
  rewrite map_app, rev_app_distr in H. cbn in H. inversion H.
  now exists l, a.
Qed.

Lemma coord_ltb_irrefl (a : Z * Z) : coord_ltb a a = false.
Proof. unfold coord_ltb. now rewrite !Z.ltb_irrefl, andb_false_r. Qed.

Lemma merge_sub_self (dt : dtype) (la : list (Z * Z * Z)) :
  merge_entries dt act_sub la la = [].
Proof.
  induction la as [|a la IH]; [reflexivity|].
  rewrite merge_entries_cons_cons, coord_ltb_irrefl, key_eqb_refl.
  cbn [merge_both]. now rewrite Z.sub_diag, norm_0, IH.
Qed.


(** X17.  The round trip through the dense form succeeds exactly when
    the bottom-right cell is non-zero: for a well-formed dense array
    [D] of integers that float64 holds exactly (absolute value at most
    2^53), [CSRMatrix(D).to_dense()] returns an array with [D]'s shape
    and cell values if and only if [D] has at least one row and one
    column and its last cell is not 0. *)
Theorem to_dense_roundtrip_iff_corner_nonzero (D : ndarray) :
  nd_wf D ->
  (forall i j, float64_exact (nd_get D i j)) ->
  (to_dense (init_ndarray D) = Ok D <->
   exists r c, nd_shape0 D = S r /\ nd_shape1 D = S c /\ nd_get D r c <> 0).
Proof.
  intros Hwf _. split.
  - intros H. destruct (to_dense_shape _ _ H) as (rl & cl & Hr & Hc & H0 & H1).
    destruct (init_ndarray_entries D) as [He Hp].
    destruct (parallel_fields _ Hp) as (Hrow & Hcol & _).
    rewrite Hrow in Hr. rewrite Hcol in Hc.
    apply py_last_map_inv in Hr, Hc.
    destruct Hr as (l1 & t1 & Hl1 & Ht1), Hc as (l2 & t2 & Hl2 & Ht2).
    rewrite Hl1 in Hl2. apply app_inj_tail in Hl2. destruct Hl2 as [_ <-].
    assert (Hin : In t1 (dense_cells D)).
    { rewrite <- He, Hl1. apply in_or_app. right. now left. }
    apply dense_cells_In in Hin. destruct Hin as (i & j & Hi & Hj & Hnz & ->).
    cbn [fst snd] in Ht1, Ht2. subst rl cl.
    exists i, j. repeat split; try lia; exact Hnz.
  - intros (r & c & Hr & Hc & Hnz). now apply (to_dense_roundtrip_corner D r c).
Qed.

Lemma to_dense_roundtrip_iff_corner_nonzero_witness :
  to_dense (init_ndarray dense_1002) = Ok dense_1002 /\
  to_dense (init_ndarray dense_1000) <> Ok dense_1000.
Proof.
  split.
  - apply (to_dense_roundtrip_iff_corner_nonzero dense_1002).
    + split; [reflexivity | repeat constructor].
    + intros i j. unfold float64_exact, nd_get. cbn [nd_rows dense_1002].
      destruct i as [|[|[|i]]]; destruct j as [|[|[|j]]]; cbn; lia.
    + exists 1%nat, 1%nat. repeat split. discriminate.
  - intros H. apply (to_dense_roundtrip_iff_corner_nonzero dense_1000) in H.
    + destruct H as (r & c & Hr & Hc & Hnz). inversion Hr. inversion Hc.
      subst. apply Hnz. reflexivity.
    + split; [reflexivity | repeat constructor].
    + intros i j. unfold float64_exact, nd_get. cbn [nd_rows dense_1000].
      destruct i as [|[|[|i]]]; destruct j as [|[|[|j]]]; cbn; lia.
Defined.



(** X19.  A matrix that stores nothing cannot be densified: [to_dense]
    raises [IndexError] as soon as the row sequence is empty, which is
    the case for [A - A] and for [0 * A] on matrices of an integer
    element type (Python int or numpy int64), and for the matrix built
    from an all-zero dense array. *)
Theorem to_dense_of_nothing_raises :
  (forall self : CSRMatrix Z,
      row_ind self = [] -> to_dense self = Raise IndexError) /\
  (forall dt A, parallel A ->
      exists M, __sub__ dt A A = Ok M /\ to_dense M = Raise IndexError) /\
  (forall dt A, exists M, __rmul__ dt A 0 = Ok M /\ to_dense M = Raise IndexError) /\
  (forall D, (forall i j, nd_get D i j = 0) ->
      to_dense (init_ndarray D) = Raise IndexError).
Proof.
  assert (Hnil : forall self : CSRMatrix Z,
             row_ind self = [] -> to_dense self = Raise IndexError).
  { intros self H. unfold to_dense. now rewrite H. }
  split; [exact Hnil|]. split; [|split].
  - intros dt A HA. unfold __sub__. rewrite (op_result dt act_sub A A HA HA).
    rewrite merge_sub_self. eexists. split; [reflexivity|].
    now apply Hnil.
  - intros dt A. eexists. split; [reflexivity|]. now apply Hnil.
  - intros D Hz. apply Hnil.
    destruct (init_ndarray_entries D) as [He Hp].
    destruct (parallel_fields _ Hp) as (Hrow & _). rewrite Hrow, He.
    destruct (dense_cells D) as [|t l] eqn:Hc; [reflexivity|].
    assert (Hin : In t (dense_cells D)) by (rewrite Hc; now left).
    apply dense_cells_In in Hin. destruct Hin as (i & j & _ & _ & Hnz & _).
    destruct (Hnz (Hz i j)).
Qed.

Lemma to_dense_of_nothing_raises_witness :
  (exists M, __sub__ np_int64 (init_ndarray dense_1002) (init_ndarray dense_1002)
             = Ok M /\
             to_dense M = Raise IndexError) /\
  to_dense (init_ndarray (mk_ndarray 2 2 [[0; 0]; [0; 0]])) = Raise IndexError.
Proof.
  destruct to_dense_of_nothing_raises as (_ & Hsub & _ & Hzero).
  split.
  - apply Hsub. split; reflexivity.
  - apply Hzero. intros i j. unfold nd_get. cbn [nd_rows].
    destruct i as [|[|[|i]]]; destruct j as [|[|[|j]]]; reflexivity.
Defined.

(** ** Outcomes of the merge loop on arbitrary operands *)

Lemma py_idx_outcome {A : Type} (l : list A) (i : nat) :
  (exists a, py_idx l i = Ok a) \/ py_idx l i = Raise IndexError.
Proof.
  unfold py_idx. destruct (nth_error l i) as [a|]; [left; now exists a | now right].
Qed.

Ltac op_outcome_case :=
  match goal with
  | |- context [bind (py_idx ?l ?k) _] =>
      let a := fresh "a" in
      let E := fresh "E" in
      destruct (py_idx_outcome l k) as [[a E]|E]; rewrite E; cbn [bind];
      [ | now right ]
  | |- context [if (?a >? ?b) then _ else _] => rewrite (Z.gtb_ltb a b)
  | |- context [if (?a <? ?b) then _ else _] => destruct (Z.ltb_spec a b)
  | |- context [if (?a =? ?b) then _ else _] => destruct (Z.eqb_spec a b)
  | |- context [if negb (is_mul ?a) then _ else _] => destruct a; cbn [is_mul negb]
  | |- context [match ?a with act_add => _ | act_sub => _ | act_mul => _ end] =>
      destruct a
  end.

Lemma _op_while_outcome (dt : dtype) (self other : CSRMatrix Z) (act : action) :
  forall fuel i j res,
    (j <= length (data other))%nat ->
    (length (row_ind self) - i + (length (data other) - j) < fuel)%nat ->
    (exists jr, _op_while dt fuel self other act i j res = Ok jr) \/
    _op_while dt fuel self other act i j res = Raise IndexError.
Proof.
  induction fuel as [|fuel IH]; intros i j [[rr rc] rd] Hj Hf; [lia|].
  cbn [_op_while].
  destruct (Nat.ltb_spec i (length (row_ind self))) as [Hi|Hi]; cbn [negb];
    [|left; eexists; reflexivity].
  destruct (Nat.eqb_spec j (length (data other))) as [Ej|Ej].
  { destruct (negb (is_mul act)); left; eexists; reflexivity. }
  unfold coord_lt, coord_eq, coord_gt.
  repeat (op_outcome_case; cbn [bind]); try (apply IH; lia); lia.
Qed.

(** X20.  The merge behind [+], [-] and [*] terminates on every pair of
    operands, parallel or not, within
    [len(self.row_ind) + len(other.data) + 1] iterations, and the only
    exception it can raise is [IndexError] (a subscript past the end of a
    sequence shorter than its siblings). *)
Theorem _op_returns_or_raises_index_error (dt : dtype) (self other : CSRMatrix Z)
  (act : action) :
  (exists t, _op dt self other act = Ok t) \/
  _op dt self other act = Raise IndexError.
Proof.
  unfold _op.
  destruct (_op_while_outcome dt self other act (_op_fuel self other) 0 0
              ([], [], [])) as [[jr H]|H]; try (unfold _op_fuel; lia).
  - rewrite H. left. eexists. reflexivity.
  - rewrite H. now right.
Qed.
